(** * MailMinder: the message normalizer and the action-item extractor

    A shallow embedding of [src/mailminder/actions.py] and
    [src/mailminder/preprocess.py], and the properties of the design
    document stated and settled against it.

    Conventions of the embedding.
    - A Python [str] is the list of its Unicode code points ([pystr]), so
      that [len] is [length] and the ellipsis U+2026 is one character.
    - Values of type [Any] (the entries of [action_items]) are [pyval], the
      JSON-shaped universe the collaborators deliver.
    - Code that can raise returns a [result].
    - What Python takes from its Unicode database, from the standard library
      and from third-party packages ([str.lower] outside ASCII, [base64],
      [EmailReplyParser], [BeautifulSoup], the clock) is the content of the
      class [Runtime]; every definition is parametric in it. *)

From Stdlib Require Import ZArith NArith QArith Lia Bool Ascii String.
From stdpp Require Import base option list gmap sorting strings pretty.

Set Warnings "-register-all,-clear-no-such-hyp".
Local Open Scope N_scope.

(** ** Strings *)

Definition char := N.
Definition pystr := list char.

(** An ASCII literal as a Python string. *)
Fixpoint py (s : string) : pystr :=
  match s with
  | EmptyString => []
  | String a t => N_of_ascii a :: py t
  end.

Arguments py : simpl never.

Definition ELLIPSIS : char := 8230.
Definition LF : char := 10.
Definition CR : char := 13.
Definition AT : char := 64.

Definition str_eqb (a b : pystr) : bool := bool_decide (a = b).

(** [Py_UNICODE_ISSPACE]: what [str.strip], [str.split] and the regular
    expression class [\s] take as whitespace. *)
Definition is_space (c : char) : bool :=
  ((9 <=? c) && (c <=? 13)) || ((28 <=? c) && (c <=? 32))
  || (c =? 133) || (c =? 160) || (c =? 5760)
  || ((8192 <=? c) && (c <=? 8202))
  || (c =? 8232) || (c =? 8233) || (c =? 8239) || (c =? 8287) || (c =? 12288).

(** [Py_UNICODE_ISLINEBREAK]: the line boundaries of [str.splitlines]. *)
Definition is_linebreak (c : char) : bool :=
  ((10 <=? c) && (c <=? 13)) || ((28 <=? c) && (c <=? 30))
  || (c =? 133) || (c =? 8232) || (c =? 8233).

Definition is_ascii (c : char) : bool := c <? 128.

Definition ascii_lower (c : char) : char :=
  if (65 <=? c) && (c <=? 90) then c + 32 else c.

Definition ascii_alnum (c : char) : bool :=
  ((48 <=? c) && (c <=? 57)) || ((65 <=? c) && (c <=? 90))
  || ((97 <=? c) && (c <=? 122)).

Definition ascii_digit (c : char) : bool := (48 <=? c) && (c <=? 57).

Fixpoint lstrip (s : pystr) : pystr :=
  match s with
  | [] => []
  | c :: t => if is_space c then lstrip t else s
  end.

Fixpoint rstrip (s : pystr) : pystr :=
  match s with
  | [] => []
  | c :: t =>
      match rstrip t with
      | [] => if is_space c then [] else [c]
      | r => c :: r
      end
  end.

(** [s.strip()] *)
Definition strip (s : pystr) : pystr := rstrip (lstrip s).

(** [s.startswith(p)] *)
Fixpoint startswith (p s : pystr) : bool :=
  match p, s with
  | [], _ => true
  | _ :: _, [] => false
  | a :: p', b :: s' => (a =? b) && startswith p' s'
  end.

(** [s.endswith(p)] *)
Definition endswith (p s : pystr) : bool := startswith (rev p) (rev s).

(** [p in s] *)
Fixpoint contains (p s : pystr) : bool :=
  startswith p s || match s with [] => false | _ :: t => contains p t end.

(** [s.count(c)] for a single character *)
Fixpoint count_char (c : char) (s : pystr) : nat :=
  match s with
  | [] => 0
  | x :: t => if x =? c then S (count_char c t) else count_char c t
  end.

(** [s.splitlines()]; [cur] is the current line, reversed. *)
Fixpoint splitlines_go (cur : pystr) (s : pystr) : list pystr :=
  match s with
  | [] => match cur with [] => [] | _ => [rev cur] end
  | c :: t =>
      if is_linebreak c then
        rev cur ::
          match t with
          | d :: t' => if (c =? CR) && (d =? LF) then splitlines_go [] t'
                       else splitlines_go [] t
          | [] => []
          end
      else splitlines_go (c :: cur) t
  end.

Definition splitlines (s : pystr) : list pystr := splitlines_go [] s.

(** [sep.join(parts)] *)
Fixpoint str_join (sep : pystr) (parts : list pystr) : pystr :=
  match parts with
  | [] => []
  | [p] => p
  | p :: rest => p ++ sep ++ str_join sep rest
  end.

(** [len(s.split())]: the number of maximal runs of non-whitespace. *)
Fixpoint count_words_go (in_word : bool) (s : pystr) : nat :=
  match s with
  | [] => 0
  | c :: t =>
      if is_space c then count_words_go false t
      else if in_word then count_words_go true t
      else S (count_words_go true t)
  end.

Definition count_words (s : pystr) : nat := count_words_go false s.

(** A Python slice [s[:k]]. *)
Definition slice_to (k : Z) (s : pystr) : pystr :=
  if (k <? 0)%Z then take (Z.to_nat (Z.of_nat (length s) + k)) s
  else take (Z.to_nat k) s.

(** ** What the code takes from outside the repository *)

Class Runtime := {
  (** [str.lower] on a string that has a character outside ASCII *)
  unicode_lower : pystr -> pystr;
  (** [str.isalnum] on a character outside ASCII (the class [\w]) *)
  unicode_alnum : char -> bool;
  (** the decimal digits outside ASCII (the class [\d]) *)
  unicode_decimal : char -> bool;
  (** [base64.urlsafe_b64decode(data.encode()).decode("utf-8", errors="replace")],
      [None] when it raises *)
  b64_text : pystr -> option pystr;
  (** [EmailReplyParser.parse_reply] *)
  parse_reply : pystr -> pystr;
  (** [BeautifulSoup(html, "html.parser")], its script and style tags
      decomposed, then [get_text(separator="\n")] *)
  soup_text : pystr -> pystr;
  (** [int(s)], [None] when it raises *)
  parse_int : pystr -> option Z;
  (** the [Date] header as epoch milliseconds, [None] when parsing raises *)
  parse_date_ms : pystr -> option Z;
  (** [datetime.now] as epoch milliseconds *)
  now_ms : Z;
}.

Section Unicode.
Context `{Runtime}.

(** [s.lower()] *)
Definition lower (s : pystr) : pystr :=
  if forallb is_ascii s then map ascii_lower s else unicode_lower s.

(** the class [\w] *)
Definition is_word (c : char) : bool :=
  if is_ascii c then ascii_alnum c || (c =? 95) else unicode_alnum c.

(** the class [\d] *)
Definition is_digit (c : char) : bool :=
  if is_ascii c then ascii_digit c else unicode_decimal c.

(** the assertion [\b] between two neighbours, [None] past either end *)
Definition word_boundary (before after : option char) : bool :=
  xorb (from_option is_word false before) (from_option is_word false after).
End Unicode.

(** ** Values of type [Any], and exceptions *)

Inductive pyval :=
| PNone
| PBool (b : bool)
| PInt (z : Z)
| PFloat (q : Q)
| PStr (s : pystr)
| PList (l : list pyval)
| PDict (d : list (pystr * pyval)).

Inductive exn := AttributeError | KeyError | TypeError.

Inductive result (A : Type) :=
| Ok (a : A)
| Raise (e : exn).
Arguments Ok {A} a.
Arguments Raise {A} e.

#[global] Instance result_ret : MRet result := @Ok.
#[global] Instance result_bind : MBind result := fun A B f m =>
  match m with Ok a => f a | Raise e => Raise e end.

(** [bool(v)] *)
Definition truthy (v : pyval) : bool :=
  match v with
  | PNone => false
  | PBool b => b
  | PInt z => negb (z =? 0)%Z
  | PFloat q => negb (Qnum q =? 0)%Z
  | PStr s => match s with [] => false | _ => true end
  | PList l => match l with [] => false | _ => true end
  | PDict d => match d with [] => false | _ => true end
  end.

(** [a or b] *)
Definition py_or (a b : pyval) : pyval := if truthy a then a else b.

(** [d.get(k)] on the items of a dict *)
Fixpoint dict_get (k : pystr) (d : list (pystr * pyval)) : pyval :=
  match d with
  | [] => PNone
  | (k', v) :: d' => if str_eqb k k' then v else dict_get k d'
  end.

(** [for it in v] *)
Definition py_iter (v : pyval) : result (list pyval) :=
  match v with
  | PList l => Ok l
  | PStr s => Ok ((fun c => PStr [c]) <$> s)
  | PDict d => Ok ((fun kv => PStr kv.1) <$> d)
  | _ => Raise TypeError
  end.

(** [v.strip()] *)
Definition py_strip (v : pyval) : result pystr :=
  match v with
  | PStr s => Ok (strip s)
  | _ => Raise AttributeError
  end.

(** ** [mailminder/actions.py] *)

(** The canonical item, the dict [{"title": t, "importance": i}]. *)
Record ActionItem := { title : pystr; importance : pyval }.

Definition item_dict (it : ActionItem) : pyval :=
  PDict [(py "title", PStr (title it)); (py "importance", importance it)].

Section Actions.
Context `{Runtime}.

(** [{"low": 1, "normal": 2, "high": 3}.get(label, 2)] *)
Definition label_importance (label : pystr) : Z :=
  if str_eqb label (py "low") then 1
  else if str_eqb label (py "normal") then 2
  else if str_eqb label (py "high") then 3
  else 2.

(** Lines 26-30: a label becomes its level, then anything that is not an
    [int] within [0, 3] becomes 2 ([bool] is a subclass of [int]). *)
Definition norm_importance (imp : pyval) : pyval :=
  let imp := match imp with
             | PStr s => PInt (label_importance (lower s))
             | _ => imp
             end in
  match imp with
  | PInt z => if (0 <=? z)%Z && (z <=? 3)%Z then imp else PInt 2
  | PBool _ => imp
  | _ => PInt 2
  end.

(** One turn of the first loop of [normalize_items]: the item appended, if
    any. *)
Definition normalize_entry (it : pyval) : result (option ActionItem) :=
  match it with
  | PStr s =>
      let t := strip s in
      Ok (match t with
          | [] => None
          | _ => Some {| title := t; importance := PInt 2 |}
          end)
  | PDict d =>
      t ← py_strip (py_or (dict_get (py "title") d)
                      (py_or (dict_get (py "task") d) (PStr [])));
      Ok (match t with
          | [] => None
          | _ => Some {| title := t;
                         importance := norm_importance (dict_get (py "importance") d) |}
          end)
  | _ => Ok None
  end.

Fixpoint normalize_entries (items : list pyval) : result (list ActionItem) :=
  match items with
  | [] => Ok []
  | it :: rest =>
      o ← normalize_entry it;
      norm ← normalize_entries rest;
      Ok (match o with Some n => n :: norm | None => norm end)
  end.

(** The second loop: drop an item whose lowered title was seen. *)
Fixpoint dedupe (seen : gset pystr) (norm : list ActionItem) : list ActionItem :=
  match norm with
  | [] => []
  | n :: rest =>
      let k := lower (title n) in
      if decide (k ∈ seen) then dedupe seen rest
      else n :: dedupe ({[k]} ∪ seen) rest
  end.

Definition normalize_items (items : pyval) : result (list ActionItem) :=
  its ← py_iter (py_or items (PList []));
  norm ← normalize_entries its;
  Ok (dedupe ∅ norm).

(** *** The patterns *)

(** [https?://\S+] matches at the head of [s]. As no character of the
    scheme is whitespace, the match is the whole run of non-whitespace
    that starts there. *)
Definition nonspace_head (s : pystr) : bool :=
  match s with c :: _ => negb (is_space c) | [] => false end.

Definition url_at (s : pystr) : bool :=
  (startswith (py "https://") s && nonspace_head (drop 8 s))
  || (startswith (py "http://") s && nonspace_head (drop 7 s)).

(** [_URL.sub(repl, s)]; [skip] while inside a match. *)
Fixpoint _URL_sub_go (repl : pystr) (skip : bool) (s : pystr) : pystr :=
  match s with
  | [] => []
  | c :: t =>
      if skip && negb (is_space c) then _URL_sub_go repl true t
      else if url_at s then repl ++ _URL_sub_go repl true t
      else c :: _URL_sub_go repl false t
  end.

Definition _URL_sub (repl : pystr) (s : pystr) : pystr := _URL_sub_go repl false s.

(** [_WHITESPACE.sub(" ", s)] *)
Fixpoint _WHITESPACE_sub_go (in_ws : bool) (s : pystr) : pystr :=
  match s with
  | [] => []
  | c :: t =>
      if is_space c then
        if in_ws then _WHITESPACE_sub_go true t else 32 :: _WHITESPACE_sub_go true t
      else c :: _WHITESPACE_sub_go false t
  end.

Definition _WHITESPACE_sub (s : pystr) : pystr := _WHITESPACE_sub_go false s.

(** [s.replace(a, b)] for single characters *)
Definition replace_char (a b : char) (s : pystr) : pystr :=
  (fun c => if c =? a then b else c) <$> s.

Definition is_terminal (c : char) : bool := (c =? 46) || (c =? 63) || (c =? 33).

Inductive split_mode := Text | InSpaces | InNewlines.

(** [re.split(r"(?<=[\.\?!])\s+|\n+", s)]. [prev_terminal] is the
    look-behind, [mode] the alternative whose match is being consumed,
    [cur] the current piece, reversed. *)
Fixpoint re_split_go (prev_terminal : bool) (mode : split_mode)
    (cur : pystr) (s : pystr) : list pystr :=
  match s with
  | [] => [rev cur]
  | c :: t =>
      if match mode with
         | Text => false
         | InSpaces => is_space c
         | InNewlines => c =? LF
         end
      then re_split_go false mode [] t
      else if prev_terminal && is_space c then rev cur :: re_split_go false InSpaces [] t
      else if c =? LF then rev cur :: re_split_go false InNewlines [] t
      else re_split_go (is_terminal c) Text (c :: cur) t
  end.

Definition re_split (s : pystr) : list pystr := re_split_go false Text [] s.

Definition _split_sentences (text : pystr) : list pystr :=
  let text := _URL_sub [] text in
  let text := _WHITESPACE_sub text in
  let text := replace_char CR LF text in
  let parts := re_split text in
  strip <$> List.filter
    (fun p => match p with [] => false | _ => (4 <=? length (strip p))%nat end)
    parts.

(** [_QUOTED_LINE.match(s)], [^\s*>+] *)
Definition _QUOTED_LINE_match (s : pystr) : bool :=
  match lstrip s with c :: _ => c =? 62 | [] => false end.

(** [_SIG_LINE.match(s)], [^\s*--\s*$] *)
Definition _SIG_LINE_match (s : pystr) : bool :=
  let r := lstrip s in
  startswith (py "--") r && forallb is_space (drop 2 r).

(** [p] at the head of [s], then [\b]; [p] ends in a character. *)
Definition word_at (p s : pystr) : bool :=
  startswith p s && word_boundary (last p) (head (drop (length p) s)).

(** [re.match(r"^(please|let\'?s|kindly)\b", s)] *)
Definition opener (s : pystr) : bool :=
  existsb (fun p => word_at p s)
    [py "please"; py "let's"; py "lets"; py "kindly"].

(** [re.match(r"^(action items?|next steps?|todo|to-do)\s*:?", s)]: what
    follows the alternatives can match the empty string. *)
Definition action_header (s : pystr) : bool :=
  existsb (fun p => startswith p s)
    [py "action item"; py "next step"; py "todo"; py "to-do"].

(** [re.search(r"\b(?:mon|tue|wed|thu|fri|sat|sun|today|tomorrow)\b", s)] *)
Fixpoint search_day_go (prev : option char) (s : pystr) : bool :=
  (word_boundary prev (head s)
   && existsb (fun w => word_at w s)
        [py "mon"; py "tue"; py "wed"; py "thu"; py "fri"; py "sat";
         py "sun"; py "today"; py "tomorrow"])
  || match s with [] => false | c :: t => search_day_go (Some c) t end.

(** [\d{1,2}\b] at the head of [s] *)
Definition digits_end (s : pystr) : bool :=
  match s with
  | d1 :: r1 =>
      is_digit d1
      && (match r1 with
          | d2 :: r2 => is_digit d2 && word_boundary (Some d2) (head r2)
          | [] => false
          end
          || word_boundary (Some d1) (head r1))
  | [] => false
  end.

(** [/\d{1,2}\b] at the head of [s] *)
Definition slash_digits (s : pystr) : bool :=
  match s with c :: r => (c =? 47) && digits_end r | [] => false end.

(** [re.search(r"\b\d{1,2}/\d{1,2}\b", s)] *)
Fixpoint search_date_go (prev : option char) (s : pystr) : bool :=
  match s with
  | [] => false
  | d1 :: r1 =>
      (word_boundary prev (Some d1) && is_digit d1
       && (match r1 with d2 :: r2 => is_digit d2 && slash_digits r2 | [] => false end
           || slash_digits r1))
      || search_date_go (Some d1) r1
  end.

(** *** Candidates and scores *)

Definition _ACTION_TRIGGERS : list pystr :=
  [py "please"; py "could you"; py "can you"; py "would you";
   py "let me know"; py "follow up"; py "circle back"; py "confirm";
   py "review"; py "share"; py "send"; py "provide"; py "update";
   py "schedule"; py "book"; py "set up"; py "arrange"; py "reply";
   py "respond"; py "sign"; py "approve";
   py "by eod"; py "by tomorrow"; py "by monday"; py "by friday";
   py "today"; py "this week"; py "deadline"; py "due"; py "asap";
   py "urgent";
   py "attach"; py "attachment"; py "draft"; py "doc"; py "invoice";
   py "payment"; py "pay"; py "ticket"; py "bug"; py "fix";
   py "implement"].

Definition _HIGH_HINTS : list pystr :=
  [py "asap"; py "urgent"; py "by eod"; py "deadline"; py "due ";
   py "tomorrow"].

(** The probe of line 130 ([^[A-Za-z]+(e|)r\b]) only guards a [pass] and
    is left out. *)
Definition _is_candidate (s : pystr) : bool :=
  let s_low := lower s in
  if (length s <? 8)%nat then false
  else if (2 <? count_char AT s)%nat then false
  else if existsb (fun p => endswith p s)
            [py "thanks"; py "thank you"; py "best"] then false
  else if existsb (fun p => startswith p s)
            [py "On "; py "From:"; py "To:"; py "Subject:"] then false
  else if _QUOTED_LINE_match s then false
  else if opener s_low then true
  else if existsb (fun t => contains t s_low) _ACTION_TRIGGERS then true
  else if endswith (py "?") s_low
          && existsb (fun k => contains k s_low)
               [py "can"; py "could"; py "would"; py "will"; py "do you";
                py "are you"] then true
  else if action_header s_low then true
  else false.

Definition _importance_from_text (s : pystr) : Z :=
  let s_low := lower s in
  if existsb (fun h => contains h s_low) _HIGH_HINTS then 3
  else if search_day_go None s_low || search_date_go None s_low then 2
  else 2.

(** Lines 169-174: stop at the signature delimiter, skip quoted lines. *)
Fixpoint keep_lines (lines : list pystr) : list pystr :=
  match lines with
  | [] => []
  | ln :: rest =>
      if _SIG_LINE_match ln then []
      else if _QUOTED_LINE_match ln then keep_lines rest
      else ln :: keep_lines rest
  end.

Definition scored (s : pystr) : ActionItem :=
  {| title := s; importance := PInt (_importance_from_text s) |}.

(** Lines 181-188, [n] being [len(items)] on entry. *)
Fixpoint collect (seen : gset pystr) (n : nat) (candidates : list pystr)
    : list ActionItem :=
  match candidates with
  | [] => []
  | s :: rest =>
      let key := lower s in
      if decide (key ∈ seen) then collect seen n rest
      else scored s ::
           (if (5 <=? S n)%nat then [] else collect ({[key]} ∪ seen) (S n) rest)
  end.

(** Lines 191-195 *)
Definition first_informative (sentences : list pystr) : list ActionItem :=
  match List.find (fun s => (6 <=? count_words s)%nat) sentences with
  | Some s => [{| title := s; importance := PInt 2 |}]
  | None => []
  end.

Definition body_text (body : pystr) : pystr :=
  strip (str_join [LF] (keep_lines (splitlines body))).

Definition candidates_of (body : pystr) : list pystr :=
  List.filter _is_candidate (_split_sentences (body_text body)).

Definition fallback_items (body : pystr) : list ActionItem :=
  match collect ∅ 0 (candidates_of body) with
  | [] => first_informative (_split_sentences (body_text body))
  | items => items
  end.

Definition fallback_extract_from_body (body : pystr) : result (list ActionItem) :=
  match body with
  | [] => Ok []
  | _ => normalize_items (PList (item_dict <$> fallback_items body))
  end.

(** [summary_json.get("action_items") or []] *)
Definition supplied_items (summary_json : list (pystr * pyval)) : pyval :=
  py_or (dict_get (py "action_items") summary_json) (PList []).

Definition extract_actions (summary_json : list (pystr * pyval)) (body : pystr)
    : result (list ActionItem) :=
  let items := supplied_items summary_json in
  norm ← normalize_items items;
  match norm with
  | [] => fallback_extract_from_body body
  | _ => Ok norm
  end.
End Actions.

(** ** [mailminder/preprocess.py] *)

(** A raw Gmail message, with the fields the code reads. A field the code
    reads with [.get] is optional; a list read with [.get(k, [])] is empty
    when absent. *)
Record part_body := { data : option pystr }.

Inductive part := Part {
  mimeType : option pystr;
  headers : list (gmap pystr pystr);
  body : option part_body;
  parts : list part;
}.

Record gmail_message := {
  msg_id : option pystr;
  threadId : option pystr;
  payload : option part;
  snippet : option pystr;
  labelIds : option (list pystr);
  internalDate : option pystr;
  historyId : option pystr;
}.

Record cleaned_email := { ce_subject : pystr; ce_body : pystr }.

Record cleaned_message := {
  cm_id : pystr;
  cm_threadId : option pystr;
  cm_subject : pystr;
  cm_from : pystr;
  cm_internalDate : pystr;
  cm_body : pystr;
  cm_headers : gmap pystr pystr;
  cm_is_read : bool;
  cm_gmail_permalink : pystr;
  cm_labels : list pystr;
  cm_historyId : option pystr;
}.

(** Python's order on strings and on pairs of strings. *)
Fixpoint str_leb (a b : pystr) : bool :=
  match a, b with
  | [], _ => true
  | _ :: _, [] => false
  | x :: a', y :: b' => (x <? y) || ((x =? y) && str_leb a' b')
  end.

Definition pair_leb (p q : pystr * pystr) : bool :=
  if str_eqb p.1 q.1 then str_leb p.2 q.2 else str_leb p.1 q.1.

Definition pair_le (p q : pystr * pystr) : Prop := pair_leb p q = true.

#[global] Instance pair_le_dec p q : Decision (pair_le p q).
Proof. unfold pair_le. apply _. Defined.

(** The memo table [_HEADER_MAP_CACHE]. Its key [str(hdr_tuple)] is the
    rendering of the sorted tuple of pairs; the rendering is injective, and
    the key is kept as the sorted list itself. *)
Abbreviation header_cache := (gmap (list (pystr * pystr)) (gmap pystr pystr)).

Section Preprocess.
Context `{Runtime}.

Definition _MAX_CHARS : Z := 1500.

Definition _truncate (text : pystr) (limit : Z) : pystr :=
  if (Z.of_nat (length text) <=? limit)%Z then strip text
  else rstrip (slice_to (limit - 1) text) ++ [ELLIPSIS].

Definition _simplify_urls (text : pystr) : pystr := _URL_sub (py "[link]") text.

(** [re.sub(r"\n{3,}", "\n\n", s)]; [run] counts the newlines of the run
    so far. *)
Fixpoint squeeze_newlines (run : nat) (s : pystr) : pystr :=
  match s with
  | [] => []
  | c :: t =>
      if c =? LF then
        if (run <? 2)%nat then LF :: squeeze_newlines (S run) t
        else squeeze_newlines (S run) t
      else c :: squeeze_newlines 0 t
  end.

Definition _html_to_text (html : pystr) : pystr :=
  strip (squeeze_newlines 0 (soup_text html)).

(** The body before [_truncate] (steps 2 to 4a of [clean_email]). *)
Definition untruncated_body (body : pystr) : pystr :=
  let body_clean := parse_reply body in
  let body_clean :=
    if contains (py "<html") (lower body_clean)
       || contains (py "</") (slice_to 200 body_clean)
    then _html_to_text body_clean else body_clean in
  _simplify_urls body_clean.

Definition clean_email (subject body : pystr)
    (headers : option (gmap pystr pystr)) : cleaned_email :=
  let body_clean := _truncate (untruncated_body body) _MAX_CHARS in
  let subject_clean :=
    match strip subject with [] => py "(no subject)" | s => s end in
  let subject_clean :=
    match headers with
    | Some h =>
        if decide (h = ∅) then subject_clean
        else match default [] (h !! py "From") with
             | [] => subject_clean
             | sender => sender ++ py ": " ++ subject_clean
             end
    | None => subject_clean
    end in
  {| ce_subject := subject_clean; ce_body := body_clean |}.

(** [(h["name"], h["value"])] *)
Definition header_pair (h : gmap pystr pystr) : result (pystr * pystr) :=
  match h !! py "name", h !! py "value" with
  | Some n, Some v => Ok (n, v)
  | _, _ => Raise KeyError
  end.

Fixpoint header_pairs (headers : list (gmap pystr pystr))
    : result (list (pystr * pystr)) :=
  match headers with
  | [] => Ok []
  | h :: rest =>
      p ← header_pair h;
      ps ← header_pairs rest;
      Ok (p :: ps)
  end.

(** [{h["name"]: h["value"] for h in headers}]: a later entry overwrites
    an earlier one of the same name. *)
Definition header_map (pairs : list (pystr * pystr)) : gmap pystr pystr :=
  foldl (fun m p => <[p.1 := p.2]> m) ∅ pairs.

Definition _headers_to_dict (headers : list (gmap pystr pystr))
    (cache : header_cache) : result (gmap pystr pystr * header_cache) :=
  pairs ← header_pairs headers;
  let key := merge_sort pair_le pairs in
  match cache !! key with
  | Some m => Ok (m, cache)
  | None => let m := header_map pairs in Ok (m, <[key := m]> cache)
  end.

Definition is_textual (mime_type : pystr) : bool :=
  str_eqb mime_type (py "text/plain") || startswith (py "text/") mime_type.

Fixpoint _decode_part (p : part) : pystr :=
  let mime_type := default [] (mimeType p) in
  let data := body p ≫= data in
  if match data with
     | Some (_ :: _) => is_textual mime_type
     | _ => false
     end
  then default [] (data ≫= b64_text)
  else
    (fix dive (subs : list part) : pystr :=
       match subs with
       | [] => []
       | sub :: rest =>
           match _decode_part sub with
           | [] => dive rest
           | text => text
           end
       end) (parts p).

Definition _parse_received_at (internal_date : option pystr)
    (headers : gmap pystr pystr) : Z :=
  let from_header :=
    match headers !! py "Date", headers !! py "date" with
    | Some (c :: d), _ => default now_ms (parse_date_ms (c :: d))
    | _, Some (c :: d) => default now_ms (parse_date_ms (c :: d))
    | _, _ => now_ms
    end in
  match internal_date with
  | Some (c :: d) => default from_header (parse_int (c :: d))
  | _ => from_header
  end.

Definition clean_gmail_message (msg : gmail_message) (cache : header_cache)
    : result (cleaned_message * header_cache) :=
  let headers_raw := from_option headers [] (payload msg) in
  '(headers, cache) ← _headers_to_dict headers_raw cache;
  let subject := default [] (headers !! py "Subject") in
  let sender := default [] (headers !! py "From") in
  let body_raw :=
    match from_option _decode_part [] (payload msg) with
    | [] => default [] (snippet msg)
    | text => text
    end in
  let cleaned := clean_email subject body_raw (Some headers) in
  let labels := default [] (labelIds msg) in
  let is_read := negb (bool_decide (py "UNREAD" ∈ labels)) in
  gmail_message_id ← match msg_id msg with
                     | Some i => Ok i
                     | None => Raise KeyError
                     end;
  let gmail_permalink :=
    py "https://mail.google.com/mail/u/0/#inbox/" ++ gmail_message_id in
  let internal_ms := _parse_received_at (internalDate msg) headers in
  Ok ({| cm_id := gmail_message_id;
         cm_threadId := threadId msg;
         cm_subject := ce_subject cleaned;
         cm_from := sender;
         cm_internalDate := py (pretty internal_ms);
         cm_body := ce_body cleaned;
         cm_headers := headers;
         cm_is_read := is_read;
         cm_gmail_permalink := gmail_permalink;
         cm_labels := labels;
         cm_historyId := historyId msg |}, cache).
End Preprocess.

(** ** A runtime for ASCII data

    Used to evaluate the code on concrete ASCII inputs, where the Unicode
    tables are not consulted. Base64 follows the non-strict decoder of
    CPython's [binascii.a2b_base64] after the URL-safe translation. The
    reply parser and the HTML parser are the identity, the date parsers
    fail and the clock shows 0: stand-ins, for the statements that need
    some runtime and do not depend on which. *)

Definition b64_value (c : char) : option N :=
  if (65 <=? c) && (c <=? 90) then Some (c - 65)
  else if (97 <=? c) && (c <=? 122) then Some (c - 71)
  else if (48 <=? c) && (c <=? 57) then Some (c + 4)
  else if (c =? 43) || (c =? 45) then Some 62
  else if (c =? 47) || (c =? 95) then Some 63
  else None.

(** [quad_pos], [leftchar] and [pads] are the decoder's registers; [out] is
    the output so far, reversed. [None] is [binascii.Error]. *)
Fixpoint a2b_base64_go (quad_pos : nat) (leftchar : N) (pads : nat)
    (out : list N) (s : pystr) : option (list N) :=
  match s with
  | [] => match quad_pos with O => Some (rev out) | _ => None end
  | c :: t =>
      if c =? 61 then
        if (2 <=? quad_pos)%nat then
          if (4 <=? quad_pos + S pads)%nat then Some (rev out)
          else a2b_base64_go quad_pos leftchar (S pads) out t
        else a2b_base64_go quad_pos leftchar pads out t
      else
        match b64_value c with
        | None => a2b_base64_go quad_pos leftchar pads out t
        | Some v =>
            match quad_pos with
            | 0%nat => a2b_base64_go 1 v 0 out t
            | 1%nat => a2b_base64_go 2 (v mod 16) 0 (leftchar * 4 + v / 16 :: out) t
            | 2%nat => a2b_base64_go 3 (v mod 4) 0 (leftchar * 16 + v / 4 :: out) t
            | _ => a2b_base64_go 0 0 0 (leftchar * 64 + v :: out) t
            end
        end
  end.

(** Decoding as UTF-8 with [errors="replace"], exact when every byte is
    ASCII. *)
Definition ascii_b64_text (data : pystr) : option pystr :=
  match a2b_base64_go 0 0 0 [] data with
  | Some bytes => Some (map (fun b => if is_ascii b then b else 65533) bytes)
  | None => None
  end.

Definition ascii_runtime : Runtime := {|
  unicode_lower := fun s => s;
  unicode_alnum := fun _ => false;
  unicode_decimal := fun _ => false;
  b64_text := ascii_b64_text;
  parse_reply := fun s => s;
  soup_text := fun s => s;
  parse_int := fun _ => None;
  parse_date_ms := fun _ => None;
  now_ms := 0;
|}.

(** ** The rest of [mailminder/preprocess.py] *)

Section Batches.
Context `{Runtime}.

(** [headers_list[i] if headers_list and i < len(headers_list) else None] *)
Definition batch_headers (headers_list : option (list (option (gmap pystr pystr))))
    (i : nat) : option (gmap pystr pystr) :=
  match headers_list with
  | Some (h :: l) =>
      if (i <? length (h :: l))%nat then default None ((h :: l) !! i) else None
  | _ => None
  end.

(** The loop of [clean_email_batch], [i] being the index [enumerate]
    gives. *)
Fixpoint clean_email_batch_go (i : nat) (emails : list (pystr * pystr))
    (headers_list : option (list (option (gmap pystr pystr))))
    : list (pystr * pystr) :=
  match emails with
  | [] => []
  | (subject, body) :: rest =>
      let result := clean_email subject body (batch_headers headers_list i) in
      (ce_subject result, ce_body result)
        :: clean_email_batch_go (S i) rest headers_list
  end.

Definition clean_email_batch (emails : list (pystr * pystr))
    (headers_list : option (list (option (gmap pystr pystr))))
    : list (pystr * pystr) :=
  clean_email_batch_go 0 emails headers_list.

(** [[clean_gmail_message(m) for m in msgs]], the memo table passing from
    one message to the next. *)
Fixpoint clean_gmail_batch (msgs : list gmail_message) (cache : header_cache)
    : result (list cleaned_message * header_cache) :=
  match msgs with
  | [] => Ok ([], cache)
  | m :: rest =>
      '(r, cache) ← clean_gmail_message m cache;
      '(rs, cache) ← clean_gmail_batch rest cache;
      Ok (r :: rs, cache)
  end.
End Batches.

Definition opt_str (o : option pystr) : pyval :=
  match o with Some s => PStr s | None => PNone end.

(** The dict [clean_gmail_message] returns (lines 190-202), as the callers
    read it. *)
Definition message_dict (r : cleaned_message) : list (pystr * pyval) :=
  [(py "id", PStr (cm_id r));
   (py "threadId", opt_str (cm_threadId r));
   (py "subject", PStr (cm_subject r));
   (py "from", PStr (cm_from r));
   (py "internalDate", PStr (cm_internalDate r));
   (py "body", PStr (cm_body r));
   (py "headers", PDict (prod_map id PStr <$> map_to_list (cm_headers r)));
   (py "is_read", PBool (cm_is_read r));
   (py "gmail_permalink", PStr (cm_gmail_permalink r));
   (py "labels", PList (PStr <$> cm_labels r));
   (py "historyId", opt_str (cm_historyId r))].

(** ** [mailminder/fetcher.py] *)

Module fetcher.
Section Fetcher.
Context `{Runtime}.

Definition _headers_to_dict (headers : list (gmap pystr pystr))
    : result (gmap pystr pystr) :=
  pairs ← header_pairs headers;
  Ok (header_map pairs).

(** [base64.urlsafe_b64decode(data).decode("utf-8", errors="replace")] on a
    [str]: a character outside ASCII makes it raise, and an ASCII string
    is its own encoding. *)
Definition b64_text_of_str (data : pystr) : option pystr :=
  if forallb is_ascii data then b64_text data else None.

Fixpoint _extract_plain_body (p : part) : pystr :=
  if startswith (py "text/") (default [] (mimeType p))
     && bool_decide (is_Some (body p ≫= data))
  then default [] ((body p ≫= data) ≫= b64_text_of_str)
  else
    (fix dive (subs : list part) : pystr :=
       match subs with
       | [] => []
       | sub :: rest =>
           match _extract_plain_body sub with
           | [] => dive rest
           | text => text
           end
       end) (parts p).
End Fetcher.
End fetcher.

(** ** [mailminder/summarizer.py] *)

(** [d[k] = v] *)
Fixpoint dict_set (k : pystr) (v : pyval) (d : list (pystr * pyval))
    : list (pystr * pyval) :=
  match d with
  | [] => [(k, v)]
  | (k', v') :: d' =>
      if str_eqb k k' then (k', v) :: d' else (k', v') :: dict_set k v d'
  end.

(** [k in d] *)
Definition dict_has (k : pystr) (d : list (pystr * pyval)) : bool :=
  existsb (fun kv => str_eqb k kv.1) d.

(** [d.setdefault(k, v)] *)
Definition dict_setdefault (k : pystr) (v : pyval) (d : list (pystr * pyval))
    : list (pystr * pyval) :=
  if dict_has k d then d else d ++ [(k, v)].

Definition EM_DASH : char := 8212.

Section Summarizer.
Context `{Runtime}.

Definition fake_summary (subject body : pystr) : list (pystr * pyval) :=
  [(py "summary",
    PStr (py "[FAKE] "
          ++ match subject with [] => py "(no subject)" | _ => subject end
          ++ [32; EM_DASH; 32] ++ slice_to 150 body ++ py "..."));
   (py "importance", PStr (py "normal"));
   (py "action_items", PList [])].

Definition _heuristic_importance (subject body : pystr) : pystr :=
  let s := lower subject in
  let b := lower body in
  if existsb (fun t => contains t s || contains t b)
       [py "urgent"; py "asap"; py "action required"; py "payment";
        py "invoice"; py "deadline"]
  then py "high" else py "normal".

Definition summarize_single (msg : list (pystr * pyval))
    : result (list (pystr * pyval)) :=
  subject ← py_strip (py_or (dict_get (py "subject") msg) (PStr []));
  body ← py_strip (py_or (dict_get (py "body") msg)
                     (py_or (dict_get (py "body_text") msg) (PStr [])));
  let body := if (2000 <? length body)%nat then slice_to 2000 body else body in
  let out := fake_summary subject body in
  let out := dict_set (py "importance")
               (PStr (_heuristic_importance subject body)) out in
  let out := dict_setdefault (py "summary")
               (PStr (py "[FAKE] Summary unavailable.")) out in
  let out := dict_setdefault (py "importance") (PStr (py "normal")) out in
  let out := dict_setdefault (py "action_items") (PList []) out in
  Ok out.
End Summarizer.

(** ** [mailminder/db.py] *)

(** A row handed to the insert of [upsert_action_items]. *)
Record action_row := { row_mid : pystr; row_title : pystr; row_imp : pyval }.

(** [it.get(k)] on a value that need not be a dict *)
Definition py_get (k : pystr) (v : pyval) : result pyval :=
  match v with
  | PDict d => Ok (dict_get k d)
  | _ => Raise AttributeError
  end.

Section Db.
Context `{Runtime}.

(** Lines 163-165 *)
Definition row_importance (imp : pyval) : pyval :=
  match imp with
  | PInt z => if (0 <=? z)%Z && (z <=? 3)%Z then imp else PInt 2
  | PBool _ => imp
  | _ => PInt 2
  end.

(** [to_add], the rows [upsert_action_items] hands to the insert, [have]
    being the lowered titles the table holds for the message. With no row
    no statement is run; the function returns the row count the database
    reports. A missing importance reads as 2, as does [None]. *)
Fixpoint upsert_action_items (message_id : pystr) (items : list pyval)
    (have : gset pystr) : result (list action_row) :=
  match items with
  | [] => Ok []
  | it :: rest =>
      v ← py_get (py "title") it;
      t ← py_strip (py_or v (PStr []));
      rows ← upsert_action_items message_id rest have;
      Ok (match t with
          | [] => rows
          | _ =>
              if decide (lower t ∈ have) then rows
              else {| row_mid := message_id; row_title := t;
                      row_imp := row_importance
                                   (match it with
                                    | PDict d => dict_get (py "importance") d
                                    | _ => PNone
                                    end) |} :: rows
          end)
  end.
End Db.

(** ** [cli.py] *)

(** The class [[\\w.-]] of the pattern, as the raw string gives it to the
    engine: a backslash, [w], [.] and [-]. *)
Definition tracking_class (c : char) : bool :=
  (c =? 92) || (c =? 119) || (c =? 46) || (c =? 45).

Fixpoint run_length (f : char → bool) (s : pystr) : nat :=
  match s with
  | c :: t => if f c then S (run_length f t) else 0
  | [] => 0
  end.

(** The length of the match of [https://[\\w.-]*indeed\\.com\\S+] at the
    head of [s]: the scheme, a run of the class, [indeed], a backslash, a
    character that is not a newline, [com], a backslash, and a run of at
    least one [S]. *)
Definition tracking_match (s : pystr) : option nat :=
  if startswith (py "https://") s then
    let k := run_length tracking_class (drop 8 s) in
    let r := drop k (drop 8 s) in
    if startswith (py "indeed") r then
      match drop 6 r with
      | b :: x :: r' =>
          if (b =? 92) && negb (x =? LF) && startswith (py "com") r' then
            match drop 3 r' with
            | b' :: r'' =>
                let n := run_length (fun c => c =? 83) r'' in
                if (b' =? 92) && (0 <? n)%nat
                then Some (8 + k + 6 + 2 + 3 + 1 + n)%nat
                else None
            | [] => None
            end
          else None
      | _ => None
      end
    else None
  else None.

(** [re.sub(..., "[job link]", s)]; [skip] characters of a match are left
    to pass. *)
Fixpoint tracking_sub_go (skip : nat) (s : pystr) : pystr :=
  match s with
  | [] => []
  | c :: t =>
      match skip with
      | S k => tracking_sub_go k t
      | O =>
          match tracking_match s with
          | Some n => py "[job link]" ++ tracking_sub_go (n - 1) t
          | None => c :: tracking_sub_go 0 t
          end
      end
  end.

Definition remove_tracking_links (text : pystr) : pystr :=
  tracking_sub_go 0 text.

(** ** Vocabulary of the statements *)

Section Vocabulary.
Context `{Runtime}.

(** The key under which the second loop of [normalize_items] compares two
    items. *)
Definition key (n : ActionItem) : pystr := lower (title n).

(** What the first loop of [normalize_items] appends is canonical: a
    non-empty trimmed title and an importance the loop would leave
    alone. *)
Definition canonical (n : ActionItem) : Prop :=
  title n ≠ [] ∧ strip (title n) = title n
  ∧ norm_importance (importance n) = importance n.

Definition no_newline (s : pystr) : Prop :=
  Forall (fun c => c ≠ LF ∧ c ≠ CR) s.

Definition no_terminal (s : pystr) : Prop :=
  Forall (fun c => is_terminal c = false) s.

(** The text [re.split] receives in [_split_sentences]. *)
Definition prepared (text : pystr) : pystr :=
  replace_char CR LF (_WHITESPACE_sub (_URL_sub [] text)).




(** A header entry [{"name": n, "value": v}]. *)
Definition header (n v : pystr) : gmap pystr pystr :=
  {[ py "name" := n; py "value" := v ]}.

(** Every header entry of the payload has a name and a value. *)
Definition headers_complete (msg : gmail_message) : Prop :=
  Forall (fun h => is_Some (h !! py "name") ∧ is_Some (h !! py "value"))
    (from_option headers [] (payload msg)).

(** A part that [_decode_part] decodes: its payload data is present and
    its MIME type is textual. *)
Definition is_hit (p : part) : bool :=
  match body p ≫= data with
  | Some (_ :: _) => is_textual (default [] (mimeType p))
  | _ => false
  end.

(** Its decoded content, empty when decoding fails. *)
Definition decoded (p : part) : pystr :=
  default [] ((body p ≫= data) ≫= b64_text).

(** The decoded contents of the parts the walk can reach, in pre-order:
    it does not look below a part it decodes. *)
Fixpoint visible_texts (p : part) : list pystr :=
  if is_hit p then [decoded p]
  else concat (map visible_texts (parts p)).

Fixpoint first_nonempty (texts : list pystr) : pystr :=
  match texts with
  | [] => []
  | [] :: rest => first_nonempty rest
  | text :: _ => text
  end.

(** The reading of the design: the first part in pre-order whose MIME
    type is textual and whose data is present, and its decoded content,
    empty when decoding fails. *)
Fixpoint first_textual (p : part) : option part :=
  if is_hit p then Some p
  else
    (fix first (subs : list part) : option part :=
       match subs with
       | [] => None
       | sub :: rest =>
           match first_textual sub with
           | Some q => Some q
           | None => first rest
           end
       end) (parts p).

Definition first_textual_body (p : part) : pystr :=
  from_option decoded [] (first_textual p).

End Vocabulary.

(** ** Vocabulary of the further statements *)

(** An importance the item normalizer lets through: an [int] within
    [0, 3] ([bool] being a subclass of [int]). *)
Definition importance_ok (v : pyval) : Prop :=
  match v with
  | PInt z => (0 ≤ z ≤ 3)%Z
  | PBool _ => True
  | _ => False
  end.

(** The invariant of a canonical item. *)
Definition item_ok (n : ActionItem) : Prop :=
  title n ≠ [] ∧ strip (title n) = title n ∧ importance_ok (importance n).

(** The only whitespace is the plain space. *)
Definition plain_spaces (s : pystr) : Prop :=
  Forall (fun c => is_space c = true → c = 32) s.

Definition no_linebreak (s : pystr) : Prop :=
  Forall (fun c => is_linebreak c = false) s.

(** Some part of the tree is textual with data. *)
Fixpoint has_textual (p : part) : bool :=
  is_hit p || existsb has_textual (parts p).

(** Every payload the tree holds is a non-empty ASCII string. *)
Fixpoint data_plain (p : part) : bool :=
  match body p ≫= data with
  | Some d => match d with [] => false | _ => forallb is_ascii d end
  | None => true
  end
  && forallb data_plain (parts p).

(** No run of newlines longer than two, [k] newlines coming just before. *)
Fixpoint newline_runs_ok (k : nat) (s : pystr) : bool :=
  match s with
  | [] => true
  | c :: t =>
      if c =? LF then (k <? 2)%nat && newline_runs_ok (S k) t
      else newline_runs_ok 0 t
  end.

(** No terminal mark of [s] is followed by whitespace, [prev_terminal]
    telling whether one comes just before [s]. *)
Fixpoint uncut (prev_terminal : bool) (s : pystr) : bool :=
  match s with
  | [] => true
  | c :: t => negb (prev_terminal && is_space c) && uncut (is_terminal c) t
  end.

Definition ends_terminal (s : pystr) : bool :=
  from_option is_terminal false (last s).

(** The row of an item. *)
Definition row_of (message_id : pystr) (n : ActionItem) : action_row :=
  {| row_mid := message_id; row_title := title n; row_imp := importance n |}.

(** * Properties *)

(** ** Strings *)

Section StringFacts.
Implicit Types (s t : pystr) (c : char).

Lemma lstrip_suffix s : lstrip s `suffix_of` s.
Proof.
  induction s as [|c s IH]; simpl; [done|].
  destruct (is_space c); [by apply suffix_cons_r | done].
Qed.

Lemma rstrip_cons c s :
  rstrip (c :: s) =
    match rstrip s with
    | [] => if is_space c then [] else [c]
    | r => c :: r
    end.
Proof. done. Qed.

Lemma rstrip_cons_nonspace c s :
  is_space c = false → rstrip (c :: s) = c :: rstrip s.
Proof. intros Hc. rewrite rstrip_cons, Hc. by destruct (rstrip s). Qed.

Lemma rstrip_prefix s : rstrip s `prefix_of` s.
Proof.
  induction s as [|c s IH]; [done|].
  rewrite rstrip_cons. destruct (rstrip s) as [|d r].
  - destruct (is_space c); [apply prefix_nil|].
    apply prefix_cons, prefix_nil.
  - by apply prefix_cons.
Qed.

Lemma rstrip_idemp s : rstrip (rstrip s) = rstrip s.
Proof.
  induction s as [|c s IH]; [done|].
  rewrite rstrip_cons. destruct (rstrip s) as [|d r] eqn:E.
  - destruct (is_space c) eqn:Hc; [done|]. by rewrite rstrip_cons, Hc.
  - by rewrite rstrip_cons, IH.
Qed.

Lemma lstrip_head_nonspace s :
  match lstrip s with [] => True | c :: _ => is_space c = false end.
Proof.
  induction s as [|c s IH]; simpl; [done|].
  by destruct (is_space c) eqn:Hc.
Qed.

Lemma lstrip_fixed c s : is_space c = false → lstrip (c :: s) = c :: s.
Proof. intros Hc. simpl. by rewrite Hc. Qed.

Lemma strip_idemp s : strip (strip s) = strip s.
Proof.
  unfold strip. pose proof (lstrip_head_nonspace s) as Hh.
  destruct (lstrip s) as [|c u]; [done|].
  rewrite (rstrip_cons_nonspace _ _ Hh), (lstrip_fixed _ _ Hh).
  by rewrite <- (rstrip_cons_nonspace _ _ Hh), rstrip_idemp.
Qed.

Lemma strip_sublist s : strip s `sublist_of` s.
Proof.
  unfold strip.
  destruct (rstrip_prefix (lstrip s)) as [k Hk].
  destruct (lstrip_suffix s) as [k' Hk'].
  rewrite Hk' at 2. apply sublist_inserts_l.
  rewrite Hk at 2. by apply sublist_inserts_r.
Qed.

Lemma length_rstrip s : (length (rstrip s) ≤ length s)%nat.
Proof. apply prefix_length, rstrip_prefix. Qed.

Lemma length_strip s : (length (strip s) ≤ length s)%nat.
Proof. apply sublist_length, strip_sublist. Qed.

Lemma count_char_sublist c s t :
  s `sublist_of` t → (count_char c s ≤ count_char c t)%nat.
Proof.
  induction 1 as [|x l1 l2 _ IH|x l1 l2 _ IH]; simpl;
    [done|destruct (x =? c); lia..].
Qed.

Lemma count_char_strip c s : (count_char c (strip s) ≤ count_char c s)%nat.
Proof. apply count_char_sublist, strip_sublist. Qed.
End StringFacts.

(** ** Truncation *)

Section Truncation.
Context `{Runtime}.

Lemma truncate_short text limit :
  (Z.of_nat (length text) ≤ limit)%Z → _truncate text limit = strip text.
Proof. intros Hl. unfold _truncate. by rewrite (Zle_imp_le_bool _ _ Hl). Qed.

Lemma truncate_long text limit :
  (1 ≤ limit)%Z → (limit < Z.of_nat (length text))%Z →
  _truncate text limit =
    rstrip (take (Z.to_nat (limit - 1)) text) ++ [ELLIPSIS].
Proof.
  intros Hl Ht. unfold _truncate, slice_to.
  destruct (Z.leb_spec (Z.of_nat (length text)) limit); [lia|].
  by destruct (Z.ltb_spec (limit - 1) 0); [lia|].
Qed.

Lemma truncate_bound text limit :
  (1 ≤ limit)%Z → (Z.of_nat (length (_truncate text limit)) ≤ limit)%Z.
Proof.
  intros Hl.
  destruct (Z.le_gt_cases (Z.of_nat (length text)) limit) as [Hs|Hs].
  - rewrite truncate_short by done. pose proof (length_strip text). lia.
  - rewrite truncate_long by lia. rewrite length_app. simpl.
    pose proof (length_rstrip (take (Z.to_nat (limit - 1)) text)).
    rewrite length_take in *. lia.
Qed.

(** C2. For every subject, body and header map, the cleaned body has at
    most 1500 characters; and when the text handed to [_truncate] has more
    than 1500, the cleaned body is its first 1499 characters, stripped on
    the right, followed by one ellipsis character. *)
Theorem clean_email_truncation (subject body : pystr)
    (headers : option (gmap pystr pystr)) :
  (length (ce_body (clean_email subject body headers)) ≤ 1500)%nat
  ∧ ((1500 < length (untruncated_body body))%nat →
     ce_body (clean_email subject body headers)
     = rstrip (take 1499 (untruncated_body body)) ++ [ELLIPSIS]).
Proof.
  simpl. split.
  - pose proof (truncate_bound (untruncated_body body) _MAX_CHARS) as Hb.
    unfold _MAX_CHARS in *. lia.
  - intros Hlong. unfold _MAX_CHARS. by rewrite truncate_long by lia.
Qed.
End Truncation.

(** The third scenario of the design: a body of 2000 [x]. *)
Lemma clean_email_truncation_witness :
  (1500 < length (untruncated_body (H := ascii_runtime) (repeat 120%N 2000%nat)))%nat
  ∧ ce_body (clean_email (H := ascii_runtime) (py "Hi") (repeat 120%N 2000%nat) None)
    = repeat 120%N 1499%nat ++ [ELLIPSIS].
Proof.
  assert (Hlen : (1500 < length (untruncated_body (H := ascii_runtime)
                                   (repeat 120%N 2000%nat)))%nat)
    by (vm_compute; lia).
  split; [exact Hlen|].
  rewrite (proj2 (clean_email_truncation (H := ascii_runtime)
                    (py "Hi") (repeat 120%N 2000%nat) None) Hlen).
  by vm_compute.
Defined.

(** ** The item normalizer *)

Section Items.
Context `{Runtime}.
Implicit Types (n m : ActionItem) (norm out : list ActionItem)
  (seen : gset pystr).

Lemma dedupe_sublist seen norm : dedupe seen norm `sublist_of` norm.
Proof.
  revert seen. induction norm as [|n norm IH]; intros seen; simpl; [done|].
  case_decide; [by apply sublist_cons | by apply sublist_skip].
Qed.

Lemma dedupe_fresh seen norm n : n ∈ dedupe seen norm → key n ∉ seen.
Proof.
  revert seen. induction norm as [|x norm IH]; intros seen; simpl.
  - by intros ?%elem_of_nil.
  - case_decide as Hx; [by apply IH|].
    intros [->|Hn]%elem_of_cons; [done|].
    apply IH in Hn. set_solver.
Qed.

Lemma dedupe_NoDup seen norm : NoDup (key <$> dedupe seen norm).
Proof.
  revert seen. induction norm as [|x norm IH]; intros seen; simpl.
  - constructor.
  - case_decide as Hx; [by apply IH|].
    rewrite fmap_cons. constructor; [|by apply IH].
    intros (m & Hk & Hm)%list_elem_of_fmap.
    apply dedupe_fresh in Hm. unfold key in *. set_solver.
Qed.

(** An item is kept exactly when its key was not seen before the loop and
    no earlier item has it. *)
Lemma dedupe_first seen norm n :
  n ∈ dedupe seen norm ↔
  ∃ i, norm !! i = Some n ∧ (key n ∉ seen)
       ∧ (∀ j m, (j < i)%nat → norm !! j = Some m → key m ≠ key n).
Proof.
  revert seen. induction norm as [|x norm IH]; intros seen; simpl.
  { split; [by intros ?%elem_of_nil | by intros (i & ? & _)]. }
  fold (key x). case_decide as Hx.
  - rewrite IH. split.
    + intros (i & Hi & Hn & Hfirst). exists (S i). split_and!; [done..|].
      intros [|j] m Hj Hm; simplify_eq/=; [congruence|].
      eapply Hfirst; [|done]. lia.
    + intros ([|i] & Hi & Hn & Hfirst); simplify_eq/=; [done|].
      exists i. split_and!; [done..|].
      intros j m Hj Hm. apply (Hfirst (S j)); [lia|done].
  - rewrite elem_of_cons, IH. split.
    + intros [->|(i & Hi & Hn & Hfirst)].
      { exists 0%nat. split_and!; [done..|]. intros; lia. }
      exists (S i). split_and!; [done|set_solver|].
      intros [|j] m Hj Hm; simplify_eq/=; [set_solver|].
      eapply Hfirst; [|done]. lia.
    + intros ([|i] & Hi & Hn & Hfirst); simplify_eq/=; [by left|].
      right. exists i. split_and!; [done| |].
      { assert (key x ≠ key n) by (apply (Hfirst 0%nat); [lia|done]).
        set_solver. }
      intros j m Hj Hm. apply (Hfirst (S j)); [lia|done].
Qed.

Lemma dedupe_fixed seen norm :
  NoDup (key <$> norm) → (∀ n, n ∈ norm → key n ∉ seen) →
  dedupe seen norm = norm.
Proof.
  revert seen. induction norm as [|x norm IH]; intros seen Hnd Hseen;
    simpl; [done|].
  apply NoDup_cons in Hnd as [Hx Hnd].
  case_decide as Hin.
  - exfalso. apply (Hseen x); [by left|done].
  - f_equal. apply IH; [done|]. intros n Hn.
    assert (key n ≠ key x).
    { intros Heq. apply Hx. rewrite <- Heq. by apply list_elem_of_fmap_2. }
    assert (key n ∉ seen) by (apply Hseen; by right).
    unfold key in *. set_solver.
Qed.

Lemma label_importance_range label :
  (0 ≤ label_importance label ≤ 3)%Z.
Proof. unfold label_importance. repeat case_match; lia. Qed.

Lemma norm_importance_idemp imp :
  norm_importance (norm_importance imp) = norm_importance imp.
Proof.
  destruct imp as [| | z | | s | |]; try done.
  - unfold norm_importance.
    destruct ((0 <=? z)%Z && (z <=? 3)%Z) eqn:E; by rewrite ?E.
  - unfold norm_importance.
    pose proof (label_importance_range (lower s)) as [H0 H3].
    apply Z.leb_le in H0, H3. rewrite !H0, !H3. simpl. by rewrite H0, H3.
Qed.

Lemma normalize_entry_canonical it n :
  normalize_entry it = Ok (Some n) → canonical n.
Proof.
  destruct it as [| | | | s | | d]; simpl; try done.
  - intros [= Hn]. destruct (strip s) as [|c t] eqn:E; [done|].
    simplify_eq. split_and!; simpl; [done| |done].
    by rewrite <- E, strip_idemp.
  - destruct (py_strip _) as [t|] eqn:Et; simpl; [|done].
    intros [= Hn]. destruct t as [|c t]; [done|]. simplify_eq.
    split_and!; simpl; [done| |apply norm_importance_idemp].
    unfold py_strip in Et. case_match; simplify_eq.
    by rewrite <- Et, strip_idemp.
Qed.

Lemma normalize_entries_canonical its norm :
  normalize_entries its = Ok norm → Forall canonical norm.
Proof.
  revert norm. induction its as [|it its IH]; intros norm; simpl.
  - by intros [= <-].
  - destruct (normalize_entry it) as [o|] eqn:Eo; simpl; [|done].
    destruct (normalize_entries its) as [norm'|]; simpl; [|done].
    intros [= <-]. destruct o as [n|]; [|by apply IH].
    constructor; [by eapply normalize_entry_canonical | by apply IH].
Qed.

Lemma normalize_entry_item_dict n :
  canonical n → normalize_entry (item_dict n) = Ok (Some n).
Proof.
  destruct n as [t imp]. intros (Ht & Hs & Hi); simpl in *.
  change (dict_get (py "title") _) with (PStr t).
  change (dict_get (py "importance") _) with imp.
  unfold py_or at 1. simpl. destruct t as [|c t]; [done|].
  simpl. rewrite Hs. simpl. by rewrite Hi.
Qed.

Lemma normalize_entries_item_dict norm :
  Forall canonical norm → normalize_entries (item_dict <$> norm) = Ok norm.
Proof.
  induction 1 as [|n norm Hn _ IH]; [done|].
  rewrite fmap_cons. cbn [normalize_entries].
  rewrite normalize_entry_item_dict by done. by rewrite IH.
Qed.

Lemma normalize_items_list its :
  normalize_items (PList its) = norm ← normalize_entries its; Ok (dedupe ∅ norm).
Proof. by destruct its. Qed.

Lemma normalize_items_inv items out :
  normalize_items items = Ok out →
  ∃ its norm, py_iter (py_or items (PList [])) = Ok its
              ∧ normalize_entries its = Ok norm ∧ out = dedupe ∅ norm.
Proof.
  unfold normalize_items.
  destruct (py_iter _) as [its|]; simpl; [|discriminate].
  destruct (normalize_entries its) as [norm|] eqn:E; simpl; [|discriminate].
  intros [= <-]. by exists its, norm.
Qed.

(** C3. [normalize_items] keeps, of the normalized entries, exactly those
    whose lowered trimmed title occurs at no earlier entry, in input
    order, each with the importance of that first occurrence; the kept
    titles are pairwise distinct when lowered. On the input of the design
    it returns the single item [Book flight] of importance 2. *)
Theorem normalize_items_dedup :
  normalize_items
    (PList [PStr (py "Book flight");
            PDict [(py "title", PStr (py "book flight"));
                   (py "importance", PStr (py "high"))]])
  = Ok [{| title := py "Book flight"; importance := PInt 2 |}]
  ∧ ∀ its norm,
      normalize_entries its = Ok norm →
      ∃ out,
        normalize_items (PList its) = Ok out
        ∧ out `sublist_of` norm
        ∧ NoDup (key <$> out)
        ∧ ∀ n, n ∈ out ↔
            ∃ i, norm !! i = Some n
                 ∧ (∀ j m, (j < i)%nat → norm !! j = Some m → key m ≠ key n).
Proof.
  split; [by vm_compute|].
  intros its norm Hnorm. exists (dedupe ∅ norm).
  rewrite normalize_items_list, Hnorm. split_and!; [done| | |].
  - apply dedupe_sublist.
  - apply dedupe_NoDup.
  - intros n. rewrite dedupe_first. split.
    + intros (i & ? & _ & ?). by exists i.
    + intros (i & ? & ?). exists i. split_and!; [done|set_solver|done].
Qed.

(** C8. Normalizing the output of [normalize_items] again returns it
    unchanged: the same titles, importances and order. *)
Theorem normalize_items_idempotent items out :
  normalize_items items = Ok out →
  normalize_items (PList (item_dict <$> out)) = Ok out.
Proof.
  intros (its & norm & _ & Hnorm & ->)%normalize_items_inv.
  assert (Forall canonical (dedupe ∅ norm)) as Hcan.
  { apply normalize_entries_canonical in Hnorm.
    rewrite Forall_forall in *. intros n Hn. apply Hnorm.
    by eapply sublist_subseteq; [apply dedupe_sublist|]. }
  rewrite normalize_items_list, normalize_entries_item_dict by done.
  simpl. f_equal. apply dedupe_fixed; [apply dedupe_NoDup|set_solver].
Qed.
End Items.

(** The input of the design's dedup property, with its two normalized
    entries. *)
Lemma normalize_items_dedup_witness :
  normalize_entries (H := ascii_runtime)
    [PStr (py "Book flight");
     PDict [(py "title", PStr (py "book flight"));
            (py "importance", PStr (py "high"))]]
  = Ok [{| title := py "Book flight"; importance := PInt 2 |};
        {| title := py "book flight"; importance := PInt 3 |}]
  ∧ ∃ out,
      normalize_items (H := ascii_runtime)
        (PList [PStr (py "Book flight");
                PDict [(py "title", PStr (py "book flight"));
                       (py "importance", PStr (py "high"))]]) = Ok out
      ∧ out `sublist_of`
          [{| title := py "Book flight"; importance := PInt 2 |};
           {| title := py "book flight"; importance := PInt 3 |}].
Proof.
  split; [by vm_compute|].
  destruct (proj2 (normalize_items_dedup (H := ascii_runtime)) _ _
              (eq_refl : normalize_entries (H := ascii_runtime)
                 [PStr (py "Book flight");
                  PDict [(py "title", PStr (py "book flight"));
                         (py "importance", PStr (py "high"))]] = Ok _))
    as (out & Hout & Hsub & _).
  by exists out.
Defined.

Lemma normalize_items_idempotent_witness :
  normalize_items (H := ascii_runtime)
    (PList [PStr (py " Reply to Ana "); PStr (py "reply to ana");
            PDict [(py "task", PStr (py "Pay invoice"));
                   (py "importance", PInt 7)]])
  = Ok [{| title := py "Reply to Ana"; importance := PInt 2 |};
        {| title := py "Pay invoice"; importance := PInt 2 |}]
  ∧ normalize_items (H := ascii_runtime)
      (PList (item_dict <$>
                [{| title := py "Reply to Ana"; importance := PInt 2 |};
                 {| title := py "Pay invoice"; importance := PInt 2 |}]))
    = Ok [{| title := py "Reply to Ana"; importance := PInt 2 |};
          {| title := py "Pay invoice"; importance := PInt 2 |}].
Proof.
  assert (Hfirst :
    normalize_items (H := ascii_runtime)
      (PList [PStr (py " Reply to Ana "); PStr (py "reply to ana");
              PDict [(py "task", PStr (py "Pay invoice"));
                     (py "importance", PInt 7)]])
    = Ok [{| title := py "Reply to Ana"; importance := PInt 2 |};
          {| title := py "Pay invoice"; importance := PInt 2 |}])
    by (by vm_compute).
  split; [exact Hfirst|].
  exact (normalize_items_idempotent (H := ascii_runtime) _ _ Hfirst).
Defined.

(** ** The sentence segmenter *)

Section Segmenter.
Implicit Types (s cur : pystr) (c : char).

Lemma URL_sub_no_terminal skip s :
  no_terminal s → no_terminal (_URL_sub_go [] skip s).
Proof.
  intros Hs. revert skip. induction Hs as [|c s Hc _ IH]; intros skip; simpl.
  - constructor.
  - destruct (skip && negb (is_space c)); [apply IH|].
    destruct (url_at (c :: s)); [apply IH|]. constructor; [done|apply IH].
Qed.

Lemma WHITESPACE_sub_no_terminal in_ws s :
  no_terminal s → no_terminal (_WHITESPACE_sub_go in_ws s).
Proof.
  intros Hs. revert in_ws. induction Hs as [|c s Hc _ IH]; intros in_ws; simpl.
  - constructor.
  - destruct (is_space c); [destruct in_ws|]; try apply IH;
      constructor; try done; apply IH.
Qed.

(** After the whitespace runs are collapsed no line break is left. *)
Lemma WHITESPACE_sub_no_newline in_ws s : no_newline (_WHITESPACE_sub_go in_ws s).
Proof.
  revert in_ws. induction s as [|c s IH]; intros in_ws; simpl.
  - constructor.
  - destruct (is_space c) eqn:Hc; [destruct in_ws|]; try apply IH.
    + constructor; [done|apply IH].
    + constructor; [|apply IH]. split; intros ->; done.
Qed.

Lemma replace_char_id s : no_newline s → replace_char CR LF s = s.
Proof.
  induction 1 as [|c s [_ Hc] _ IH]; [done|].
  unfold replace_char in *. rewrite fmap_cons, IH.
  by destruct (N.eqb_spec c CR).
Qed.

Lemma re_split_go_no_cut cur s :
  no_newline s → no_terminal s →
  re_split_go false Text cur s = [rev cur ++ s].
Proof.
  intros Hn Ht. revert cur.
  induction Hn as [|c s [Hc _] _ IH]; intros cur; simpl.
  - by rewrite app_nil_r.
  - apply Forall_cons in Ht as [Hc' Ht].
    destruct (N.eqb_spec c LF); [done|].
    rewrite Hc', IH by done. simpl. by rewrite <- app_assoc.
Qed.

Lemma prepared_no_newline text : no_newline (prepared text).
Proof.
  unfold prepared. rewrite replace_char_id; apply WHITESPACE_sub_no_newline.
Qed.

(** C6. A text without [.], [?] and [!] is never cut, whatever line breaks
    it has: [_split_sentences] returns at most one sentence, since the
    whitespace runs, line breaks included, are collapsed to spaces before
    the split on newlines. *)
Theorem split_sentences_newline_not_cut (text : pystr) :
  no_terminal text → (length (_split_sentences text) ≤ 1)%nat.
Proof.
  intros Ht. unfold _split_sentences. fold (prepared text).
  unfold re_split. rewrite re_split_go_no_cut.
  - rewrite length_fmap. simpl. case_match; simpl; [lia|].
    case_match; simpl; lia.
  - apply prepared_no_newline.
  - unfold prepared. rewrite replace_char_id by apply WHITESPACE_sub_no_newline.
    by apply WHITESPACE_sub_no_terminal, URL_sub_no_terminal.
Qed.
End Segmenter.

(** Two fragments separated by a newline come back as one sentence. *)
Lemma split_sentences_newline_not_cut_witness :
  no_terminal (py "Buy milk" ++ [LF] ++ py "Call mom")
  ∧ _split_sentences (py "Buy milk" ++ [LF] ++ py "Call mom")
    = [py "Buy milk Call mom"]
  ∧ (length (_split_sentences (py "Buy milk" ++ [LF] ++ py "Call mom")) ≤ 1)%nat.
Proof.
  assert (Ht : no_terminal (py "Buy milk" ++ [LF] ++ py "Call mom"))
    by (unfold no_terminal; simpl; repeat constructor).
  split_and!; [exact Ht|by vm_compute|].
  exact (split_sentences_newline_not_cut _ Ht).
Defined.

(** ** Extraction *)

Section Extraction.
Context `{Runtime}.
Implicit Types (s body : pystr) (n m : ActionItem).

Lemma is_candidate_at s : _is_candidate s = true → (count_char AT s ≤ 2)%nat.
Proof.
  unfold _is_candidate. destruct (length s <? 8)%nat; [done|].
  destruct (Nat.ltb_spec 2 (count_char AT s)); [done|lia].
Qed.

Lemma collect_scored seen k candidates n :
  n ∈ collect seen k candidates → ∃ s, s ∈ candidates ∧ n = scored s.
Proof.
  revert seen k. induction candidates as [|s rest IH]; intros seen k;
    cbn -[Nat.leb].
  - by intros ?%elem_of_nil.
  - case_decide.
    + intros (s' & ? & ?)%IH. exists s'. split; [by right|done].
    + intros [->|Hn]%elem_of_cons; [exists s; split; [by left|done]|].
      destruct (5 <=? S k)%nat; [by apply elem_of_nil in Hn|].
      apply IH in Hn as (s' & ? & ?). exists s'. split; [by right|done].
Qed.

Lemma collect_nil candidates : collect ∅ 0 candidates = [] → candidates = [].
Proof. destruct candidates as [|s rest]; [done|]. simpl. by case_decide. Qed.

(** Lines 181-188 never keep more than five items. *)
Lemma collect_length seen k candidates :
  (k < 5)%nat → (k + length (collect seen k candidates) ≤ 5)%nat.
Proof.
  revert seen k. induction candidates as [|s rest IH]; intros seen k Hk;
    cbn -[Nat.leb]; [lia|].
  case_decide; [by apply IH|]. cbn -[Nat.leb].
  destruct (Nat.leb_spec 5 (S k)); simpl; [lia|].
  specialize (IH ({[lower s]} ∪ seen) (S k)). lia.
Qed.

Lemma normalize_entry_built n :
  ∃ o, normalize_entry (item_dict n) = Ok o
       ∧ ∀ m, o = Some m → title m = strip (title n).
Proof.
  destruct n as [t imp]. unfold normalize_entry, item_dict.
  change (dict_get (py "title") _) with (PStr t).
  change (dict_get (py "task") _) with PNone.
  destruct t as [|c t].
  - exists None. split; [done|]. by intros m [=].
  - unfold py_or at 1. simpl. destruct (strip (c :: t)) as [|d u] eqn:E.
    + exists None. split; [done|]. by intros m [=].
    + eexists. split; [done|]. by intros m [= <-].
Qed.

Lemma normalize_entries_built items :
  ∃ norm, normalize_entries (item_dict <$> items) = Ok norm
          ∧ (length norm ≤ length items)%nat
          ∧ ∀ m, m ∈ norm → ∃ n, n ∈ items ∧ title m = strip (title n).
Proof.
  induction items as [|n items (norm & Hnorm & Hlen & Hin)].
  - exists []. split_and!; [done..|]. by intros m ?%elem_of_nil.
  - destruct (normalize_entry_built n) as (o & Ho & Ht).
    rewrite fmap_cons. cbn [normalize_entries]. rewrite Ho, Hnorm. simpl.
    eexists. split; [done|]. destruct o as [m'|]; simpl.
    + split; [lia|]. intros m [->|Hm]%elem_of_cons.
      * exists n. split; [by left|by apply Ht].
      * destruct (Hin m Hm) as (n' & ? & ?). exists n'. split; [by right|done].
    + split; [lia|]. intros m Hm.
      destruct (Hin m Hm) as (n' & ? & ?). exists n'. split; [by right|done].
Qed.

(** The heuristic path returns: it raises on no body. *)
Lemma fallback_extract_from_body_inv body :
  ∃ norm, fallback_extract_from_body body = Ok (dedupe ∅ norm)
          ∧ (length norm ≤ length (fallback_items body))%nat
          ∧ ∀ m, m ∈ norm →
              ∃ n, n ∈ fallback_items body ∧ title m = strip (title n).
Proof.
  destruct body as [|c body].
  - exists []. split_and!; [done|simpl; lia|]. by intros m ?%elem_of_nil.
  - destruct (normalize_entries_built (fallback_items (c :: body)))
      as (norm & Hnorm & Hlen & Hin).
    exists norm. split_and!; [|done..].
    unfold fallback_extract_from_body.
    by rewrite normalize_items_list, Hnorm.
Qed.

(** C7. The heuristic path returns a list, and a title in it with more
    than two [@] can only be the single first sentence of six words or
    more, taken when no sentence passes the candidate filter: no sentence
    that passes the filter has more than two [@]. *)
Theorem fallback_at_signs body :
  ∃ out,
    fallback_extract_from_body body = Ok out
    ∧ ∀ m, m ∈ out →
        (count_char AT (title m) ≤ 2)%nat
        ∨ (candidates_of body = [] ∧ out = [m]).
Proof.
  destruct (fallback_extract_from_body_inv body) as (norm & Hout & Hlen & Hin).
  exists (dedupe ∅ norm). split; [done|]. intros m Hm.
  assert (m ∈ norm) as Hmn
    by (by eapply sublist_subseteq; [apply dedupe_sublist|]).
  destruct (Hin m Hmn) as (n & Hn & Ht). rewrite Ht.
  unfold fallback_items in *.
  destruct (collect ∅ 0 (candidates_of body)) as [|x items] eqn:Ec.
  - right. split; [by apply collect_nil|].
    unfold first_informative in *.
    destruct (List.find _ _) as [s|]; simpl in Hlen.
    + destruct norm as [|m' [|m'' norm]]; simpl in Hlen;
        [by apply elem_of_nil in Hmn| |lia].
      apply list_elem_of_singleton in Hmn as ->. simpl. by case_decide; set_solver.
    + by apply elem_of_nil in Hn.
  - left. rewrite <- Ec in Hn.
    apply collect_scored in Hn as (s & Hs & ->). simpl.
    etrans; [apply count_char_strip|]. apply is_candidate_at.
    apply list_elem_of_In, filter_In in Hs. tauto.
Qed.

Lemma extract_actions_some summary n out body :
  normalize_items (supplied_items summary) = Ok (n :: out) →
  extract_actions summary body = Ok (n :: out).
Proof. intros Hn. unfold extract_actions. by rewrite Hn. Qed.

Lemma extract_actions_none summary body :
  normalize_items (supplied_items summary) = Ok [] →
  extract_actions summary body = fallback_extract_from_body body.
Proof. intros Hn. unfold extract_actions. by rewrite Hn. Qed.

(** C1. When the supplied items normalize to at least one item,
    [extract_actions] returns exactly those, whatever the body is; when
    they normalize to none, it returns what the heuristic path extracts
    from the body. *)
Theorem extract_actions_precedence (summary : list (pystr * pyval)) :
  (∀ n out,
     normalize_items (supplied_items summary) = Ok (n :: out) →
     ∀ body, extract_actions summary body = Ok (n :: out))
  ∧ (normalize_items (supplied_items summary) = Ok [] →
     ∀ body, extract_actions summary body = fallback_extract_from_body body).
Proof.
  split.
  - intros n out Hn body. by apply extract_actions_some.
  - intros Hn body. by apply extract_actions_none.
Qed.

(** C4. On the body of the design's first scenario, with no item
    supplied, extraction returns the first sentence alone, with
    importance 2: it holds no high-urgency hint. The second sentence is
    shorter than eight characters. *)
Theorem extract_actions_scenario_1 (summary : list (pystr * pyval)) :
  normalize_items (supplied_items summary) = Ok [] →
  extract_actions summary
    (py "Please review the attached doc by Friday. Thanks.")
  = Ok [{| title := py "Please review the attached doc by Friday.";
           importance := PInt 2 |}].
Proof.
  intros Hn. rewrite extract_actions_none by done. by vm_compute.
Qed.
End Extraction.

(** A summary with one usable item: the body, which holds a request, is
    ignored. *)
Lemma extract_actions_precedence_witness :
  normalize_items (H := ascii_runtime)
    (supplied_items [(py "action_items", PList [PStr (py "Call Bob")])])
  = Ok [{| title := py "Call Bob"; importance := PInt 2 |}]
  ∧ extract_actions (H := ascii_runtime)
      [(py "action_items", PList [PStr (py "Call Bob")])]
      (py "Please review the attached doc by Friday. Thanks.")
    = Ok [{| title := py "Call Bob"; importance := PInt 2 |}].
Proof.
  assert (Hn :
    normalize_items (H := ascii_runtime)
      (supplied_items [(py "action_items", PList [PStr (py "Call Bob")])])
    = Ok [{| title := py "Call Bob"; importance := PInt 2 |}])
    by (by vm_compute).
  split; [exact Hn|].
  exact (proj1 (extract_actions_precedence (H := ascii_runtime) _) _ _ Hn _).
Defined.

(** A non-empty list of supplied items, a blank title and an entry without
    a title, normalizes to nothing: the result is then taken from the body,
    not the empty normalized form. *)
Lemma extract_actions_precedence_counterexample :
  normalize_items (H := ascii_runtime)
    (PList [PStr (py "  "); PDict [(py "importance", PStr (py "high"))]])
  = Ok []
  ∧ extract_actions (H := ascii_runtime)
      [(py "action_items",
        PList [PStr (py "  "); PDict [(py "importance", PStr (py "high"))]])]
      (py "Please review the attached doc by Friday. Thanks.")
    = Ok [{| title := py "Please review the attached doc by Friday.";
             importance := PInt 2 |}].
Proof. split; by vm_compute. Qed.

Lemma extract_actions_scenario_1_witness :
  normalize_items (H := ascii_runtime) (supplied_items []) = Ok []
  ∧ extract_actions (H := ascii_runtime) []
      (py "Please review the attached doc by Friday. Thanks.")
    = Ok [{| title := py "Please review the attached doc by Friday.";
             importance := PInt 2 |}].
Proof.
  assert (Hn : normalize_items (H := ascii_runtime) (supplied_items []) = Ok [])
    by (by vm_compute).
  split; [exact Hn|].
  exact (extract_actions_scenario_1 (H := ascii_runtime) [] Hn).
Defined.

(** The design's first scenario gives importance 2, not 3. *)
Lemma extract_actions_scenario_1_counterexample :
  extract_actions (H := ascii_runtime) [(py "action_items", PList [])]
    (py "Please review the attached doc by Friday. Thanks.")
  = Ok [{| title := py "Please review the attached doc by Friday.";
           importance := PInt 2 |}]
  ∧ extract_actions (H := ascii_runtime) [(py "action_items", PList [])]
      (py "Please review the attached doc by Friday. Thanks.")
    ≠ Ok [{| title := py "Please review the attached doc by Friday.";
             importance := PInt 3 |}].
Proof.
  assert (Hv :
    extract_actions (H := ascii_runtime) [(py "action_items", PList [])]
      (py "Please review the attached doc by Friday. Thanks.")
    = Ok [{| title := py "Please review the attached doc by Friday.";
             importance := PInt 2 |}])
    by (by vm_compute).
  split; [exact Hv|]. rewrite Hv. intros [=].
Qed.

(** A request with one [@]: it passes the filter and is the only item. *)
Lemma fallback_at_signs_witness :
  fallback_extract_from_body (H := ascii_runtime)
    (py "Please send the draft to ana@example.com today.")
  = Ok [{| title := py "Please send the draft to ana@example.com today.";
           importance := PInt 2 |}]
  ∧ ((count_char AT (py "Please send the draft to ana@example.com today.") ≤ 2)%nat
     ∨ (candidates_of (H := ascii_runtime)
          (py "Please send the draft to ana@example.com today.") = []
        ∧ [{| title := py "Please send the draft to ana@example.com today.";
              importance := PInt 2 |}]
          = [{| title := py "Please send the draft to ana@example.com today.";
                importance := PInt 2 |}])).
Proof.
  destruct (fallback_at_signs (H := ascii_runtime)
              (py "Please send the draft to ana@example.com today."))
    as (out & Hout & Hall).
  assert (Hv :
    fallback_extract_from_body (H := ascii_runtime)
      (py "Please send the draft to ana@example.com today.")
    = Ok [{| title := py "Please send the draft to ana@example.com today.";
             importance := PInt 2 |}])
    by (by vm_compute).
  rewrite Hv in Hout. injection Hout as <-. split; [done|].
  apply (Hall {| title := py "Please send the draft to ana@example.com today.";
                 importance := PInt 2 |}).
  by left.
Defined.

(** A sentence with three [@] that fails the filter, in a body where no
    sentence passes it, comes back as the fallback item. *)
Lemma fallback_at_signs_counterexample :
  fallback_extract_from_body (H := ascii_runtime)
    (py "Contact a@x.com b@y.com c@z.com for more info")
  = Ok [{| title := py "Contact a@x.com b@y.com c@z.com for more info";
           importance := PInt 2 |}]
  ∧ count_char AT (py "Contact a@x.com b@y.com c@z.com for more info") = 3%nat.
Proof. split; by vm_compute. Qed.

(** ** The MIME walk *)

Section Decode.
Context `{Runtime}.

(** Induction on a part tree, with the property for every sub-part. *)
Lemma part_tree_ind (P : part → Prop) :
  (∀ m h b ps, Forall P ps → P (Part m h b ps)) → ∀ p, P p.
Proof.
  intros Hpart. fix IH 1. intros [m h b ps]. apply Hpart.
  induction ps as [|sub ps IHps]; constructor; [apply IH | apply IHps].
Qed.

Lemma decode_part_unfold p :
  _decode_part p =
    if is_hit p then decoded p
    else first_nonempty (_decode_part <$> parts p).
Proof.
  destruct p as [m h b ps]. unfold is_hit, decoded. simpl.
  case_match; [done|].
  induction ps as [|sub ps IH]; [done|].
  rewrite fmap_cons. simpl. rewrite IH. by destruct (_decode_part sub).
Qed.

Lemma first_nonempty_app l k :
  first_nonempty (l ++ k) =
    match first_nonempty l with [] => first_nonempty k | text => text end.
Proof.
  induction l as [|[|c t] l IH]; simpl; [by destruct (first_nonempty k)|done..].
Qed.

(** C5. [_decode_part] walks the parts in pre-order, not looking below a
    textual part with data, and returns the decoded content of the first
    such part whose content is not empty; a part that fails to decode
    counts as empty, so that the walk goes on to the later parts, and the
    result is empty when no such part has content. The walk returns on
    every tree. *)
Theorem decode_part_first_nonempty (p : part) :
  _decode_part p = first_nonempty (visible_texts p).
Proof.
  induction p as [m h b ps IH] using part_tree_ind.
  rewrite decode_part_unfold. cbn [visible_texts].
  destruct (is_hit _); [by destruct (decoded _)|].
  cbn [parts]. induction IH as [|sub ps Hsub _ IHps]; [done|].
  rewrite fmap_cons, map_cons, concat_cons, first_nonempty_app.
  rewrite <- Hsub, <- IHps. simpl. by destruct (_decode_part sub).
Qed.


End Decode.

(** A multipart message whose first textual part does not decode and whose
    second one does: the walk returns the second, where the design's
    reading gives the empty string. *)
Lemma decode_part_first_nonempty_counterexample :
  _decode_part (H := ascii_runtime)
    (Part (Some (py "multipart/alternative")) [] None
       [Part (Some (py "text/plain")) [] (Some {| data := Some (py "A") |}) [];
        Part (Some (py "text/html")) [] (Some {| data := Some (py "aGk=") |}) []])
  = py "hi"
  ∧ first_textual
      (Part (Some (py "multipart/alternative")) [] None
         [Part (Some (py "text/plain")) [] (Some {| data := Some (py "A") |}) [];
          Part (Some (py "text/html")) [] (Some {| data := Some (py "aGk=") |}) []])
    = Some (Part (Some (py "text/plain")) [] (Some {| data := Some (py "A") |}) [])
  ∧ b64_text (Runtime := ascii_runtime) (py "A") = None
  ∧ first_textual_body (H := ascii_runtime)
      (Part (Some (py "multipart/alternative")) [] None
         [Part (Some (py "text/plain")) [] (Some {| data := Some (py "A") |}) [];
          Part (Some (py "text/html")) [] (Some {| data := Some (py "aGk=") |}) []])
    = [].
Proof. split_and!; by vm_compute. Qed.

(** ** The header map and its memo table *)

Section Order.
Implicit Types (a b c : pystr) (p q r : pystr * pystr).

Lemma str_leb_refl a : str_leb a a = true.
Proof.
  induction a as [|x a IH]; simpl; [done|].
  rewrite N.eqb_refl, IH. simpl. apply orb_true_r.
Qed.

Lemma str_leb_total a b : str_leb a b = true ∨ str_leb b a = true.
Proof.
  revert b. induction a as [|x a IH]; intros [|y b]; simpl; auto.
  destruct (N.lt_trichotomy x y) as [Hlt|[->|Hgt]].
  - left. apply N.ltb_lt in Hlt. by rewrite Hlt.
  - rewrite N.eqb_refl, N.ltb_irrefl. simpl. apply IH.
  - right. apply N.ltb_lt in Hgt. by rewrite Hgt.
Qed.

Lemma str_leb_antisym a b : str_leb a b = true → str_leb b a = true → a = b.
Proof.
  revert b. induction a as [|x a IH]; intros [|y b]; simpl; try done.
  destruct (N.ltb_spec x y), (N.ltb_spec y x), (N.eqb_spec x y),
    (N.eqb_spec y x); simpl; try done; try lia.
  intros ??. subst. f_equal. by apply IH.
Qed.

Lemma str_leb_trans a b c :
  str_leb a b = true → str_leb b c = true → str_leb a c = true.
Proof.
  revert b c. induction a as [|x a IH]; intros [|y b] [|z c]; simpl;
    try done.
  destruct (N.ltb_spec x y), (N.ltb_spec y z), (N.ltb_spec x z),
    (N.eqb_spec x y), (N.eqb_spec y z), (N.eqb_spec x z);
    simpl; try done; try lia.
  apply IH.
Qed.

#[global] Instance pair_le_total : Total pair_le.
Proof.
  intros [a1 a2] [b1 b2]. unfold pair_le, pair_leb, str_eqb. simpl.
  repeat case_bool_decide; subst; try done; apply str_leb_total.
Qed.

#[global] Instance pair_le_antisym : AntiSymm (=) pair_le.
Proof.
  intros [a1 a2] [b1 b2]. unfold pair_le, pair_leb, str_eqb. simpl.
  repeat case_bool_decide; subst; try done.
  - intros ??. f_equal. by apply str_leb_antisym.
  - intros ??. exfalso. eauto using str_leb_antisym.
Qed.

#[global] Instance pair_le_trans : Transitive pair_le.
Proof.
  intros [a1 a2] [b1 b2] [c1 c2]. unfold pair_le, pair_leb, str_eqb. simpl.
  repeat case_bool_decide; subst; try done; eauto using str_leb_trans.
  intros ??. exfalso. eauto using str_leb_antisym.
Qed.

End Order.

Section Headers.
Context `{Runtime}.
Implicit Types (pairs : list (pystr * pystr)) (cache : header_cache).

Lemma header_map_snoc pairs k v :
  header_map (pairs ++ [(k, v)]) = <[k := v]> (header_map pairs).
Proof. unfold header_map. by rewrite foldl_snoc. Qed.




Lemma headers_to_dict_inv hs cache m cache' :
  _headers_to_dict hs cache = Ok (m, cache') →
  ∃ pairs, header_pairs hs = Ok pairs
    ∧ match cache !! merge_sort pair_le pairs with
      | Some m' => m = m' ∧ cache' = cache
      | None => m = header_map pairs
                ∧ cache' = <[merge_sort pair_le pairs := m]> cache
      end.
Proof.
  unfold _headers_to_dict.
  destruct (header_pairs hs) as [pairs|]; simpl; [|discriminate].
  intros Hm. exists pairs. split; [done|].
  destruct (cache !! _); by simplify_eq.
Qed.


End Headers.



(** ** Which inputs make the core raise *)

Section Totality.
Context `{Runtime}.






Lemma header_pairs_complete hs :
  Forall (fun h => is_Some (h !! py "name") ∧ is_Some (h !! py "value")) hs →
  ∃ pairs, header_pairs hs = Ok pairs.
Proof.
  induction 1 as [|h hs [[n Hn] [v Hv]] _ [pairs IH]]; simpl; [eauto|].
  unfold header_pair. rewrite Hn, Hv, IH. simpl. eauto.
Qed.

Lemma headers_to_dict_complete hs cache :
  Forall (fun h => is_Some (h !! py "name") ∧ is_Some (h !! py "value")) hs →
  ∃ r, _headers_to_dict hs cache = Ok r.
Proof.
  intros [pairs Hp]%header_pairs_complete. unfold _headers_to_dict.
  rewrite Hp. simpl. destruct (cache !! _); eauto.
Qed.

Lemma clean_gmail_message_total msg cache :
  is_Some (msg_id msg) → headers_complete msg →
  ∃ r, clean_gmail_message msg cache = Ok r.
Proof.
  intros [i Hi] Hh. unfold clean_gmail_message.
  destruct (headers_to_dict_complete _ cache Hh) as [[hmap cache'] ->].
  simpl. rewrite Hi. simpl. eauto.
Qed.


End Totality.



(** * Further properties *)

(** ** What the item normalizer and the extraction return *)

Section ItemInvariant.
Context `{Runtime}.
Implicit Types (n m : ActionItem) (out norm : list ActionItem).

Lemma norm_importance_ok imp : importance_ok (norm_importance imp).
Proof.
  destruct imp as [| | z | | s | |]; try done.
  - unfold norm_importance.
    destruct (Z.leb_spec 0 z), (Z.leb_spec z 3); simpl; lia.
  - unfold norm_importance.
    pose proof (label_importance_range (lower s)) as [H0 H3].
    destruct (Z.leb_spec 0 (label_importance (lower s))),
      (Z.leb_spec (label_importance (lower s)) 3); simpl; lia.
Qed.

Lemma normalize_entry_ok it n : normalize_entry it = Ok (Some n) → item_ok n.
Proof.
  destruct it as [| | | | s | | d]; simpl; try done.
  - intros [= Hn]. destruct (strip s) as [|c t] eqn:E; [done|].
    simplify_eq. split_and!; simpl; [done| |lia].
    by rewrite <- E, strip_idemp.
  - destruct (py_strip _) as [t|] eqn:Et; simpl; [|done].
    intros [= Hn]. destruct t as [|c t]; [done|]. simplify_eq.
    split_and!; simpl; [done| |apply norm_importance_ok].
    unfold py_strip in Et. case_match; simplify_eq.
    by rewrite <- Et, strip_idemp.
Qed.

Lemma normalize_entries_ok its norm :
  normalize_entries its = Ok norm →
  Forall item_ok norm ∧ (length norm ≤ length its)%nat.
Proof.
  revert norm. induction its as [|it its IH]; intros norm; simpl.
  - intros [= <-]. split; [constructor|done].
  - destruct (normalize_entry it) as [o|] eqn:Eo; simpl; [|done].
    destruct (normalize_entries its) as [norm'|]; simpl; [|done].
    destruct (IH _ eq_refl) as [Hok Hlen].
    intros [= <-]. destruct o as [n|]; simpl; [|split; [done|lia]].
    split; [|lia]. constructor; [by eapply normalize_entry_ok|done].
Qed.

Lemma normalize_items_ok (items : pyval) out :
  normalize_items items = Ok out →
  Forall item_ok out ∧ NoDup (key <$> out).
Proof.
  intros (its & norm & _ & Hnorm & ->)%normalize_items_inv. split.
  - apply normalize_entries_ok in Hnorm as [Hok _].
    rewrite Forall_forall in *. intros n Hn. apply Hok.
    by eapply sublist_subseteq; [apply dedupe_sublist|].
  - apply dedupe_NoDup.
Qed.

(** X1. Whatever [normalize_items] returns, every item of it has a
    non-empty title without leading or trailing whitespace and an
    importance that is an int within [0, 3], and no two items have the same
    lowered title. *)
Theorem normalize_items_invariant (items : pyval) out :
  normalize_items items = Ok out →
  Forall item_ok out ∧ NoDup (key <$> out).
Proof. apply normalize_items_ok. Qed.

Lemma fallback_extract_from_body_normalized body :
  fallback_extract_from_body body = Ok []
  ∨ fallback_extract_from_body body
    = normalize_items (PList (item_dict <$> fallback_items body)).
Proof. destruct body; [by left|by right]. Qed.

Lemma extract_actions_ok (summary : list (pystr * pyval)) (body : pystr) out :
  extract_actions summary body = Ok out →
  Forall item_ok out ∧ NoDup (key <$> out).
Proof.
  unfold extract_actions.
  destruct (normalize_items (supplied_items summary)) as [norm|] eqn:En;
    simpl; [|done].
  destruct norm as [|n norm].
  - destruct (fallback_extract_from_body_normalized body) as [->| ->].
    + intros [= <-]. split; constructor.
    + apply normalize_items_ok.
  - intros [= <-]. by eapply normalize_items_ok.
Qed.

(** X2. The same holds of what [extract_actions] returns, on either path:
    the items supplied with the summary and the items found in the body
    both leave through [normalize_items]. *)
Theorem extract_actions_invariant (summary : list (pystr * pyval))
    (body : pystr) out :
  extract_actions summary body = Ok out →
  Forall item_ok out ∧ NoDup (key <$> out).
Proof. apply extract_actions_ok. Qed.

Lemma importance_from_text_values s :
  _importance_from_text s = 2%Z ∨ _importance_from_text s = 3%Z.
Proof. unfold _importance_from_text. repeat case_match; auto. Qed.

Lemma normalize_entry_built_full n :
  ∃ o, normalize_entry (item_dict n) = Ok o
       ∧ ∀ m, o = Some m →
           title m = strip (title n)
           ∧ importance m = norm_importance (importance n).
Proof.
  destruct n as [t imp]. unfold normalize_entry, item_dict.
  change (dict_get (py "title") _) with (PStr t).
  change (dict_get (py "task") _) with PNone.
  change (dict_get (py "importance") _) with imp.
  destruct t as [|c t].
  - exists None. split; [done|]. by intros m [=].
  - unfold py_or at 1. simpl. destruct (strip (c :: t)) as [|d u] eqn:E.
    + exists None. split; [done|]. by intros m [=].
    + eexists. split; [done|]. by intros m [= <-].
Qed.

Lemma normalize_entries_built_full items :
  ∃ norm, normalize_entries (item_dict <$> items) = Ok norm
          ∧ ∀ m, m ∈ norm →
              ∃ n, n ∈ items ∧ title m = strip (title n)
                   ∧ importance m = norm_importance (importance n).
Proof.
  induction items as [|n items (norm & Hnorm & Hin)].
  - exists []. split; [done|]. by intros m ?%elem_of_nil.
  - destruct (normalize_entry_built_full n) as (o & Ho & Ht).
    rewrite fmap_cons. cbn [normalize_entries]. rewrite Ho, Hnorm. simpl.
    eexists. split; [done|]. destruct o as [m'|]; simpl.
    + intros m [->|Hm]%elem_of_cons.
      * exists n. split; [by left|by apply Ht].
      * destruct (Hin m Hm) as (n' & ? & ?). exists n'. split; [by right|done].
    + intros m Hm.
      destruct (Hin m Hm) as (n' & ? & ?). exists n'. split; [by right|done].
Qed.

Lemma fallback_items_length body : (length (fallback_items body) ≤ 5)%nat.
Proof.
  unfold fallback_items.
  pose proof (collect_length ∅ 0 (candidates_of body)) as Hc.
  destruct (collect ∅ 0 (candidates_of body)) as [|x items].
  - unfold first_informative. case_match; simpl; lia.
  - lia.
Qed.

(** X3. The heuristic path returns at most five items. *)
Theorem fallback_at_most_five (body : pystr) out :
  fallback_extract_from_body body = Ok out → (length out ≤ 5)%nat.
Proof.
  destruct (fallback_extract_from_body_inv body) as (norm & -> & Hlen & _).
  intros [= <-].
  pose proof (sublist_length _ _ (dedupe_sublist ∅ norm)).
  pose proof (fallback_items_length body). lia.
Qed.
End ItemInvariant.

(** ** What the sentence segmenter returns *)

Section Sentences.
Implicit Types (s cur : pystr) (c : char).

Lemma uncut_app pt s t :
  uncut pt (s ++ t) =
    uncut pt s && uncut (match s with [] => pt | _ => ends_terminal s end) t.
Proof.
  revert pt. induction s as [|c s IH]; intros pt; simpl; [done|].
  rewrite IH, andb_assoc. f_equal. destruct s as [|d s]; [done|].
  unfold ends_terminal. by rewrite !last_cons_cons.
Qed.

Lemma uncut_prefix pt s t : uncut pt (s ++ t) = true → uncut pt s = true.
Proof. rewrite uncut_app. by intros [??]%andb_true_iff. Qed.

Lemma space_not_terminal c : is_space c = true → is_terminal c = false.
Proof.
  unfold is_terminal. intros Hc.
  destruct (N.eqb_spec c 46) as [->|]; [done|].
  destruct (N.eqb_spec c 63) as [->|]; [done|].
  by destruct (N.eqb_spec c 33) as [->|].
Qed.

Lemma uncut_lstrip s : uncut false s = true → uncut false (lstrip s) = true.
Proof.
  induction s as [|c s IH]; simpl; [done|].
  destruct (is_space c) eqn:Hc; [|done].
  rewrite (space_not_terminal _ Hc). simpl. apply IH.
Qed.

Lemma uncut_strip s : uncut false s = true → uncut false (strip s) = true.
Proof.
  intros Hs%uncut_lstrip. unfold strip.
  destruct (rstrip_prefix (lstrip s)) as [k Hk]. rewrite Hk in Hs.
  by eapply uncut_prefix.
Qed.

Lemma re_split_go_uncut mode cur s :
  uncut false (rev cur) = true →
  Forall (fun p => uncut false p = true)
    (re_split_go (ends_terminal (rev cur)) mode cur s).
Proof.
  revert mode cur. induction s as [|c s IH]; intros mode cur Hcur; simpl.
  { by constructor. }
  assert (H0 : Forall (fun p => uncut false p = true)
                 (re_split_go false mode [] s)) by (by apply (IH mode [])).
  destruct (match mode with Text => false | InSpaces => is_space c
                       | InNewlines => c =? LF end); [done|].
  destruct (ends_terminal (rev cur) && is_space c) eqn:Ecut.
  { constructor; [done|]. by apply (IH InSpaces []). }
  destruct (c =? LF).
  { constructor; [done|]. by apply (IH InNewlines []). }
  assert (Hc : uncut false (rev (c :: cur)) = true).
  { simpl. rewrite uncut_app, Hcur.
    replace (match rev cur with [] => false | _ => ends_terminal (rev cur) end)
      with (ends_terminal (rev cur)) by (by destruct (rev cur)).
    simpl. by rewrite Ecut. }
  specialize (IH Text (c :: cur) Hc).
  replace (ends_terminal (rev (c :: cur))) with (is_terminal c) in IH; [done|].
  unfold ends_terminal. simpl. by rewrite last_snoc.
Qed.

Lemma re_split_go_Forall (P : char → Prop) pt mode cur s :
  Forall P cur → Forall P s → Forall (Forall P) (re_split_go pt mode cur s).
Proof.
  intros Hcur Hs. revert pt mode cur Hcur.
  induction Hs as [|c s Hc _ IH]; intros pt mode cur Hcur; simpl.
  { constructor; [by apply Forall_rev|constructor]. }
  repeat case_match;
    first [ by apply IH
          | apply IH; by constructor
          | constructor; [by apply Forall_rev | by apply IH] ].
Qed.

Lemma WHITESPACE_sub_plain_spaces in_ws s :
  plain_spaces (_WHITESPACE_sub_go in_ws s).
Proof.
  revert in_ws. induction s as [|c s IH]; intros in_ws; simpl.
  - constructor.
  - destruct (is_space c) eqn:Hc; [destruct in_ws|]; try apply IH.
    + constructor; [done|apply IH].
    + constructor; [|apply IH]. by rewrite Hc.
Qed.

Lemma prepared_plain_spaces text : plain_spaces (prepared text).
Proof.
  unfold prepared.
  rewrite replace_char_id by apply WHITESPACE_sub_no_newline.
  apply WHITESPACE_sub_plain_spaces.
Qed.

Lemma split_sentences_elem text s :
  s ∈ _split_sentences text →
  ∃ p, p ∈ re_split (prepared text) ∧ s = strip p
       ∧ (4 ≤ length (strip p))%nat.
Proof.
  unfold _split_sentences. fold (prepared text).
  intros (p & -> & Hp)%list_elem_of_fmap.
  apply list_elem_of_In, filter_In in Hp as [Hp Hlen].
  exists p. split_and!; [by apply list_elem_of_In|done|].
  destruct p; [done|]. by apply Nat.leb_le.
Qed.

Lemma split_sentences_ok (text s : pystr) :
  s ∈ _split_sentences text →
  (4 ≤ length s)%nat ∧ strip s = s ∧ plain_spaces s ∧ uncut false s = true.
Proof.
  intros (p & Hp & -> & Hlen)%split_sentences_elem.
  split_and!; [done|apply strip_idemp| |].
  - assert (plain_spaces p) as Hpl.
    { pose proof (re_split_go_Forall _ false Text [] (prepared text)
                    (Forall_nil_2 _) (prepared_plain_spaces text)) as Hall.
      rewrite Forall_forall in Hall. by apply Hall. }
    unfold plain_spaces in *. rewrite Forall_forall in *.
    intros c Hc. apply Hpl.
    by eapply sublist_subseteq; [apply strip_sublist|].
  - apply uncut_strip.
    pose proof (re_split_go_uncut Text [] (prepared text) eq_refl) as Hall.
    rewrite Forall_forall in Hall. by apply Hall.
Qed.

(** X4. Every sentence [_split_sentences] returns has at least four
    characters, no leading or trailing whitespace, no whitespace other
    than the plain space, and no [.], [?] or [!] followed by a space: it
    is not cut short, and nothing in it is left to cut. *)
Theorem split_sentences_invariant (text s : pystr) :
  s ∈ _split_sentences text →
  (4 ≤ length s)%nat ∧ strip s = s ∧ plain_spaces s ∧ uncut false s = true.
Proof. apply split_sentences_ok. Qed.
End Sentences.

(** ** What the heuristic path reads and returns *)

Section Heuristic.
Context `{Runtime}.
Implicit Types (s body : pystr) (n m : ActionItem).

Lemma fallback_items_elem body n :
  n ∈ fallback_items body →
  title n ∈ _split_sentences (body_text body)
  ∧ (importance n = PInt 2 ∨ importance n = PInt 3).
Proof.
  unfold fallback_items.
  destruct (collect ∅ 0 (candidates_of body)) as [|x items] eqn:Ec.
  - unfold first_informative.
    destruct (List.find _ _) as [s|] eqn:Ef; [|by intros ?%elem_of_nil].
    intros ->%list_elem_of_singleton. simpl. split; [|by left].
    apply list_elem_of_In. by apply find_some in Ef as [??].
  - rewrite <- Ec. intros (s & Hs & ->)%collect_scored. simpl. split.
    + apply list_elem_of_In, filter_In in Hs as [Hs _].
      by apply list_elem_of_In.
    + destruct (importance_from_text_values s) as [-> | ->]; auto.
Qed.

Lemma fallback_extract_from_body_elem body out m :
  fallback_extract_from_body body = Ok out → m ∈ out →
  title m ∈ _split_sentences (body_text body)
  ∧ (importance m = PInt 2 ∨ importance m = PInt 3).
Proof.
  destruct (fallback_extract_from_body_normalized body) as [->| ->].
  { intros [= <-]. by intros ?%elem_of_nil. }
  destruct (normalize_entries_built_full (fallback_items body))
    as (norm & Hnorm & Hin).
  rewrite normalize_items_list, Hnorm. simpl. intros [= <-] Hm.
  assert (m ∈ norm) as (n & Hn & Ht & Hi)%Hin
    by (by eapply sublist_subseteq; [apply dedupe_sublist|]).
  apply fallback_items_elem in Hn as [Hs Himp].
  rewrite Ht, Hi.
  destruct (split_sentences_ok _ _ Hs) as (_ & -> & _). split; [done|].
  destruct Himp as [-> | ->]; auto.
Qed.

(** X5. Every item of the heuristic path has as title one of the sentences
    segmented from the body, unchanged, and an importance of 2 or 3: this
    path gives neither 0 nor 1. *)
Theorem fallback_titles_and_importance (body : pystr) out m :
  fallback_extract_from_body body = Ok out → m ∈ out →
  title m ∈ _split_sentences (body_text body)
  ∧ (importance m = PInt 2 ∨ importance m = PInt 3).
Proof. apply fallback_extract_from_body_elem. Qed.

Lemma splitlines_go_lf cur b :
  splitlines_go cur (LF :: b) = rev cur :: splitlines_go [] b.
Proof. by destruct b. Qed.

Lemma splitlines_go_app_lf s cur b :
  splitlines_go cur (s ++ LF :: b)
  = splitlines_go cur (s ++ [LF]) ++ splitlines_go [] b.
Proof.
  remember (length s) as k eqn:Hk. revert s cur Hk.
  induction k as [k IH] using lt_wf_ind. intros s cur ->.
  destruct s as [|c t]; [by rewrite !app_nil_l, !splitlines_go_lf|].
  cbn [app splitlines_go]. destruct (is_linebreak c).
  - destruct t as [|d t']; cbn [app].
    + rewrite N.eqb_refl, andb_true_r.
      destruct (c =? CR); [done|]. by rewrite !splitlines_go_lf.
    + destruct ((c =? CR) && (d =? LF)); cbn [app]; f_equal.
      * eapply IH; [|done]. simpl. lia.
      * by apply (IH (length (d :: t')) ltac:(simpl; lia) (d :: t') []).
  - eapply IH; [|done]. simpl. lia.
Qed.

Lemma splitlines_go_line cur s :
  no_linebreak s → splitlines_go cur (s ++ [LF]) = [rev cur ++ s].
Proof.
  intros Hs. revert cur. induction Hs as [|c s Hc _ IH]; intros cur.
  - by rewrite app_nil_r.
  - cbn [app splitlines_go]. rewrite Hc, IH. simpl. by rewrite <- app_assoc.
Qed.

Lemma splitlines_go_last_line cur s :
  no_linebreak s → rev cur ++ s ≠ [] → splitlines_go cur s = [rev cur ++ s].
Proof.
  intros Hs. revert cur. induction Hs as [|c s Hc _ IH]; intros cur Hne.
  - rewrite app_nil_r in *. simpl. by destruct cur.
  - cbn [splitlines_go]. rewrite Hc, IH; simpl; rewrite <- app_assoc; [done|].
    by destruct (rev cur).
Qed.

Lemma sig_line_nonempty s : _SIG_LINE_match s = true → s ≠ [].
Proof. by intros Hs ->. Qed.

(** The lines of a body in which [line] is a whole line. *)
Lemma splitlines_with_line a line rest :
  no_linebreak line → line ≠ [] →
  rest = [] ∨ (∃ b, rest = LF :: b) →
  ∃ after,
    splitlines (a ++ LF :: line ++ rest)
    = splitlines (a ++ [LF]) ++ line :: after
    ∧ (∀ b, rest = LF :: b → after = splitlines b).
Proof.
  intros Hl Hne Hrest. unfold splitlines.
  rewrite (splitlines_go_app_lf a [] (line ++ rest)).
  destruct Hrest as [->|[b ->]].
  - exists []. rewrite app_nil_r, (splitlines_go_last_line [] line Hl Hne).
    split; [done|]. by intros b [=].
  - exists (splitlines b).
    rewrite (splitlines_go_app_lf line [] b), (splitlines_go_line [] line Hl).
    split; [done|]. by intros b' [= ->].
Qed.

Lemma keep_lines_signature lines sig after :
  _SIG_LINE_match sig = true →
  keep_lines (lines ++ sig :: after) = keep_lines lines.
Proof.
  intros Hs. induction lines as [|ln lines IH]; simpl; [by rewrite Hs|].
  by rewrite IH.
Qed.

Lemma quoted_not_signature q :
  _QUOTED_LINE_match q = true → _SIG_LINE_match q = false.
Proof.
  unfold _QUOTED_LINE_match, _SIG_LINE_match.
  destruct (lstrip q) as [|c r]; [done|].
  intros ->%N.eqb_eq. done.
Qed.

Lemma keep_lines_quoted lines q after :
  _QUOTED_LINE_match q = true →
  keep_lines (lines ++ q :: after) = keep_lines (lines ++ after).
Proof.
  intros Hq. induction lines as [|ln lines IH]; simpl.
  - by rewrite quoted_not_signature, Hq.
  - by rewrite IH.
Qed.

Lemma fallback_extract_from_body_text body body' :
  body ≠ [] → body' ≠ [] → body_text body = body_text body' →
  fallback_extract_from_body body = fallback_extract_from_body body'.
Proof.
  intros Hb Hb' Ht. destruct body as [|c b], body' as [|c' b']; try done.
  unfold fallback_extract_from_body, fallback_items, candidates_of.
  by rewrite Ht.
Qed.

(** X6. A line that is a signature delimiter ends what the heuristic path
    reads: the delimiter and everything after it have no influence on the
    result. *)
Theorem fallback_stops_at_signature (a sig rest : pystr) :
  _SIG_LINE_match sig = true → no_linebreak sig →
  rest = [] ∨ (∃ b, rest = LF :: b) →
  fallback_extract_from_body (a ++ LF :: sig ++ rest)
  = fallback_extract_from_body (a ++ [LF]).
Proof.
  intros Hs Hl Hrest.
  apply fallback_extract_from_body_text; [by destruct a..|].
  destruct (splitlines_with_line a sig rest Hl (sig_line_nonempty _ Hs) Hrest)
    as (after & Hlines & _).
  unfold body_text. by rewrite Hlines, keep_lines_signature.
Qed.

(** X7. A quoted line, one whose first character after leading whitespace
    is [>], is skipped: the result is that of the body without the
    line. *)
Theorem fallback_skips_quoted_line (a q b : pystr) :
  _QUOTED_LINE_match q = true → no_linebreak q →
  fallback_extract_from_body (a ++ LF :: q ++ LF :: b)
  = fallback_extract_from_body (a ++ LF :: b).
Proof.
  intros Hq Hl.
  apply fallback_extract_from_body_text; [by destruct a..|].
  assert (q ≠ []) as Hne by (by intros ->).
  destruct (splitlines_with_line a q (LF :: b) Hl Hne) as (after & Hlines & Ha);
    [by right; eexists|].
  rewrite (Ha b eq_refl) in Hlines.
  unfold body_text. rewrite Hlines, keep_lines_quoted by done.
  unfold splitlines. by rewrite (splitlines_go_app_lf a [] b).
Qed.
End Heuristic.

(** ** The cleaning primitives *)

Section Cleaning.
Context `{Runtime}.
Implicit Types (s t text repl : pystr) (c : char).

Lemma rstrip_snoc_nonspace s c : is_space c = false → rstrip (s ++ [c]) = s ++ [c].
Proof.
  intros Hc. induction s as [|x s IH]; simpl; [by rewrite Hc|].
  rewrite IH. by destruct s.
Qed.

Lemma rstrip_strip s : rstrip (strip s) = strip s.
Proof. apply rstrip_idemp. Qed.

(** X8. Whatever the limit, [_truncate] returns a text that does not end
    in whitespace; a text that fits the limit comes back stripped on both
    sides and otherwise unchanged. *)
Theorem truncate_no_trailing_space (text : pystr) (limit : Z) :
  rstrip (_truncate text limit) = _truncate text limit
  ∧ ((Z.of_nat (length text) ≤ limit)%Z → _truncate text limit = strip text).
Proof.
  split; [|apply truncate_short].
  unfold _truncate. case_match; [apply rstrip_strip|].
  by apply rstrip_snoc_nonspace.
Qed.

Lemma startswith_app p q s : startswith (p ++ q) s = true → startswith p s = true.
Proof.
  revert s. induction p as [|a p IH]; intros [|b s]; simpl; try done.
  intros [-> ?]%andb_true_iff. simpl. by apply IH.
Qed.

Lemma url_at_http s : url_at s = true → startswith (py "http") s = true.
Proof.
  unfold url_at. intros [[Hs _]%andb_true_iff|[Hs _]%andb_true_iff]%orb_true_iff.
  - by apply (startswith_app (py "http") (py "s://")).
  - by apply (startswith_app (py "http") (py "://")).
Qed.

Lemma url_at_nonspace c s : url_at (c :: s) = true → is_space c = false.
Proof.
  intros Hu%url_at_http.
  change (py "http") with [104; 116; 116; 112] in Hu. cbn [startswith] in Hu.
  apply andb_true_iff in Hu as [<-%N.eqb_eq _]. done.
Qed.

Lemma count_words_go_word in_word repl s :
  repl ≠ [] → Forall (fun c => is_space c = false) repl →
  count_words_go in_word (repl ++ s)
  = ((if in_word then 0 else 1) + count_words_go true s)%nat.
Proof.
  intros Hne Hr. revert in_word.
  induction Hr as [|c repl Hc Hr IH]; intros in_word; [done|].
  simpl. rewrite Hc. destruct repl as [|d repl].
  - simpl. by destruct in_word.
  - rewrite IH by done. by destruct in_word.
Qed.

Lemma URL_sub_go_words repl skip in_word s :
  repl ≠ [] → Forall (fun c => is_space c = false) repl →
  (skip = true → in_word = true) →
  count_words_go in_word (_URL_sub_go repl skip s) = count_words_go in_word s.
Proof.
  intros Hne Hr. revert skip in_word.
  induction s as [|c s IH]; intros skip in_word Hinv; [done|].
  cbn [_URL_sub_go]. destruct (skip && negb (is_space c)) eqn:Es.
  - apply andb_true_iff in Es as [-> Hc%negb_true_iff].
    rewrite (Hinv eq_refl). simpl. rewrite Hc. by apply IH.
  - destruct (url_at (c :: s)) eqn:Eu.
    + rewrite count_words_go_word by done.
      pose proof (url_at_nonspace _ _ Eu) as Hc. simpl. rewrite Hc.
      rewrite (IH true true) by done. by destruct in_word.
    + simpl. destruct (is_space c); [by apply IH|].
      destruct in_word; rewrite IH; done.
Qed.

(** X9. Replacing the URLs by [[link]] never changes the number of
    whitespace-delimited words of a text. *)
Theorem simplify_urls_keeps_words (text : pystr) :
  count_words (_simplify_urls text) = count_words text.
Proof.
  unfold count_words, _simplify_urls, _URL_sub.
  apply URL_sub_go_words; [done| |done].
  by apply (bool_decide_unpack _).
Qed.

Lemma URL_sub_go_no_http repl s :
  contains (py "http") s = false → _URL_sub_go repl false s = s.
Proof.
  induction s as [|c s IH]; [done|].
  cbn [contains _URL_sub_go]. intros [Hs Hc]%orb_false_iff.
  destruct (url_at (c :: s)) eqn:Eu.
  - apply url_at_http in Eu. congruence.
  - simpl. by rewrite IH.
Qed.

(** X10. A text in which [http] does not occur passes [_simplify_urls]
    unchanged. *)
Theorem simplify_urls_without_http (text : pystr) :
  contains (py "http") text = false → _simplify_urls text = text.
Proof. apply URL_sub_go_no_http. Qed.

Lemma squeeze_newlines_ok run s :
  newline_runs_ok (run `min` 2) (squeeze_newlines run s) = true.
Proof.
  revert run. induction s as [|c s IH]; intros run; [done|].
  cbn [squeeze_newlines]. destruct (c =? LF) eqn:Ec.
  - destruct (Nat.ltb_spec run 2) as [Hr|Hr].
    + cbn [newline_runs_ok]. rewrite N.eqb_refl.
      replace (run `min` 2)%nat with run by lia.
      specialize (IH (S run)). replace (S run `min` 2)%nat with (S run) in IH by lia.
      rewrite IH. by destruct (Nat.ltb_spec run 2); [|lia].
    + specialize (IH (S run)).
      by replace (S run `min` 2)%nat with (run `min` 2)%nat in IH by lia.
  - cbn [newline_runs_ok]. rewrite Ec. apply (IH 0%nat).
Qed.

Lemma newline_runs_ok_mono k k' s :
  (k' ≤ k)%nat → newline_runs_ok k s = true → newline_runs_ok k' s = true.
Proof.
  revert k k'. induction s as [|c s IH]; intros k k' Hk; [done|].
  simpl. destruct (c =? LF); [|done].
  intros [Hlt Hs]%andb_true_iff. apply Nat.ltb_lt in Hlt.
  apply andb_true_iff. split; [apply Nat.ltb_lt; lia|].
  apply (IH (S k)); [lia|done].
Qed.

Lemma newline_runs_ok_tail k c s :
  newline_runs_ok k (c :: s) = true → newline_runs_ok 0 s = true.
Proof.
  simpl. destruct (c =? LF); [|done].
  intros [_ Hs]%andb_true_iff. apply (newline_runs_ok_mono (S k)); [lia|done].
Qed.

Lemma newline_runs_ok_lstrip k s :
  newline_runs_ok k s = true → newline_runs_ok 0 (lstrip s) = true.
Proof.
  revert k. induction s as [|c s IH]; intros k Hs; [done|].
  simpl. destruct (is_space c).
  - apply (IH 0%nat). by eapply newline_runs_ok_tail.
  - by apply (newline_runs_ok_mono k); [lia|].
Qed.

Lemma newline_runs_ok_prefix k s t :
  newline_runs_ok k (s ++ t) = true → newline_runs_ok k s = true.
Proof.
  revert k. induction s as [|c s IH]; intros k; [done|].
  simpl. destruct (c =? LF); [|apply IH].
  intros [-> Hs]%andb_true_iff. simpl. by eapply IH.
Qed.

Lemma newline_runs_ok_no_triple k s :
  newline_runs_ok k s = true → contains [LF; LF; LF] s = false.
Proof.
  revert k. induction s as [|c s IH]; intros k Hs; [done|].
  cbn [contains]. apply orb_false_iff. split.
  - cbn [startswith]. destruct (N.eqb_spec LF c) as [<-|]; [|done].
    cbn [newline_runs_ok] in Hs. rewrite N.eqb_refl in Hs.
    apply andb_true_iff in Hs as [Hk Hs]. apply Nat.ltb_lt in Hk.
    destruct s as [|d s]; [done|]. cbn [startswith andb].
    destruct (N.eqb_spec LF d) as [<-|]; [|done].
    cbn [newline_runs_ok] in Hs. rewrite N.eqb_refl in Hs.
    apply andb_true_iff in Hs as [Hk' Hs]. apply Nat.ltb_lt in Hk'.
    destruct s as [|e s]; [done|]. cbn [startswith andb].
    destruct (N.eqb_spec LF e) as [<-|]; [|done].
    cbn [newline_runs_ok] in Hs. rewrite N.eqb_refl in Hs.
    apply andb_true_iff in Hs as [Hk'' _]. apply Nat.ltb_lt in Hk''. lia.
  - destruct s as [|d s]; [done|]. eapply (IH 0%nat), newline_runs_ok_tail, Hs.
Qed.

(** X11. The text [_html_to_text] returns has no leading or trailing
    whitespace and nowhere three newlines in a row, whatever the HTML
    parser gives. *)
Theorem html_to_text_shape (html : pystr) :
  strip (_html_to_text html) = _html_to_text html
  ∧ contains [LF; LF; LF] (_html_to_text html) = false.
Proof.
  unfold _html_to_text. split; [apply strip_idemp|].
  apply (newline_runs_ok_no_triple 0). unfold strip.
  pose proof (squeeze_newlines_ok 0 (soup_text html)) as Hok.
  apply newline_runs_ok_lstrip in Hok.
  destruct (rstrip_prefix (lstrip (squeeze_newlines 0 (soup_text html))))
    as [k Hk].
  rewrite Hk in Hok. by eapply newline_runs_ok_prefix.
Qed.

Lemma clean_email_subject_shape (subject body : pystr)
    (headers : option (gmap pystr pystr)) :
  ce_subject (clean_email subject body headers) ≠ []
  ∧ ∃ prefix,
      ce_subject (clean_email subject body headers)
      = prefix ++ match strip subject with
                  | [] => py "(no subject)"
                  | s => s
                  end
      ∧ (prefix = []
         ∨ ∃ h sender, headers = Some h ∧ h !! py "From" = Some sender
                       ∧ sender ≠ [] ∧ prefix = sender ++ py ": ").
Proof.
  set (base := match strip subject with [] => py "(no subject)" | s => s end).
  assert (base ≠ []) as Hbase by (unfold base; by destruct (strip subject)).
  assert (∃ prefix,
    ce_subject (clean_email subject body headers) = prefix ++ base
    ∧ (prefix = []
       ∨ ∃ h sender, headers = Some h ∧ h !! py "From" = Some sender
                     ∧ sender ≠ [] ∧ prefix = sender ++ py ": "))
    as (prefix & Heq & Hp).
  { unfold clean_email. cbn [ce_subject]. fold base.
    destruct headers as [h|]; [|by exists []; auto].
    case_decide; [by exists []; auto|].
    destruct (h !! py "From") as [sender|] eqn:Ef; simpl; [|by exists []; auto].
    destruct sender as [|c sender]; [by exists []; auto|].
    exists ((c :: sender) ++ py ": "). split; [by rewrite <- app_assoc|].
    right. by exists h, (c :: sender). }
  split; [|by exists prefix].
  rewrite Heq. destruct prefix; [done|done].
Qed.

(** X12. The subject [clean_email] returns is never empty, and it ends
    with the subject given, stripped, or with the placeholder when that is
    empty; nothing but the sender and a colon is put before it. *)
Theorem clean_email_subject (subject body : pystr)
    (headers : option (gmap pystr pystr)) :
  ce_subject (clean_email subject body headers) ≠ []
  ∧ ∃ prefix,
      ce_subject (clean_email subject body headers)
      = prefix ++ match strip subject with
                  | [] => py "(no subject)"
                  | s => s
                  end
      ∧ (prefix = []
         ∨ ∃ h sender, headers = Some h ∧ h !! py "From" = Some sender
                       ∧ sender ≠ [] ∧ prefix = sender ++ py ": ").
Proof. apply clean_email_subject_shape. Qed.
End Cleaning.

(** ** Batches and Gmail messages *)

Section Messages.
Context `{Runtime}.

Lemma batch_headers_lookup hl i :
  batch_headers hl i = match hl with Some l => mjoin (l !! i) | None => None end.
Proof.
  destruct hl as [[|h l]|]; [done| |done]. unfold batch_headers.
  destruct (Nat.ltb_spec i (length (h :: l))) as [Hi|Hi].
  - by destruct ((h :: l) !! i).
  - by rewrite (lookup_ge_None_2 (h :: l) i Hi).
Qed.

Lemma clean_email_batch_go_lookup i j emails hl :
  clean_email_batch_go i emails hl !! j
  = (fun e => (ce_subject (clean_email e.1 e.2 (batch_headers hl (i + j))),
               ce_body (clean_email e.1 e.2 (batch_headers hl (i + j)))))
    <$> emails !! j.
Proof.
  revert i j. induction emails as [|[subject body] emails IH]; intros i j;
    [done|].
  destruct j as [|j]; simpl.
  - by rewrite Nat.add_0_r.
  - rewrite IH. by replace (S i + j)%nat with (i + S j)%nat by lia.
Qed.

(** X13. [clean_email_batch] cleans the emails one by one, in order: the
    email of index [j] is cleaned with the entry of index [j] of the
    header list, and without headers when the list is absent or has no
    such entry. *)
Theorem clean_email_batch_elementwise (emails : list (pystr * pystr))
    (headers_list : option (list (option (gmap pystr pystr)))) (j : nat) :
  clean_email_batch emails headers_list !! j
  = (fun e =>
       let headers := match headers_list with
                      | Some l => mjoin (l !! j)
                      | None => None
                      end in
       (ce_subject (clean_email e.1 e.2 headers),
        ce_body (clean_email e.1 e.2 headers)))
    <$> emails !! j.
Proof.
  unfold clean_email_batch. rewrite clean_email_batch_go_lookup. simpl.
  by rewrite batch_headers_lookup.
Qed.

Lemma clean_gmail_message_inv msg cache r cache' :
  clean_gmail_message msg cache = Ok (r, cache') →
  ∃ hmap,
    _headers_to_dict (from_option headers [] (payload msg)) cache
    = Ok (hmap, cache')
    ∧ msg_id msg = Some (cm_id r)
    ∧ cm_headers r = hmap
    ∧ cm_gmail_permalink r
      = py "https://mail.google.com/mail/u/0/#inbox/" ++ cm_id r
    ∧ cm_threadId r = threadId msg
    ∧ cm_from r = default [] (hmap !! py "From")
    ∧ cm_is_read r = negb (bool_decide (py "UNREAD" ∈ default [] (labelIds msg)))
    ∧ ∃ body_raw,
        body_raw = match from_option _decode_part [] (payload msg) with
                   | [] => default [] (snippet msg)
                   | text => text
                   end
        ∧ cm_subject r
          = ce_subject (clean_email (default [] (hmap !! py "Subject"))
                          body_raw (Some hmap))
        ∧ cm_body r = _truncate (untruncated_body body_raw) _MAX_CHARS.
Proof.
  unfold clean_gmail_message.
  destruct (_headers_to_dict _ _) as [[hmap c]|]; simpl; [|done].
  destruct (msg_id msg) as [i|]; simpl; [|done].
  intros [= <- <-]. exists hmap. split_and!; try done.
  eexists. split_and!; done.
Qed.

(** X14. When [clean_gmail_message] returns, the result carries the id of
    the message and the permalink built from that id, a subject that is
    not empty, a body of at most 1500 characters, the value of the [From]
    header as sender, and is read exactly when the labels do not hold
    [UNREAD]. *)
Theorem clean_gmail_message_result (msg : gmail_message)
    (cache : header_cache) r cache' :
  clean_gmail_message msg cache = Ok (r, cache') →
  msg_id msg = Some (cm_id r)
  ∧ cm_gmail_permalink r
    = py "https://mail.google.com/mail/u/0/#inbox/" ++ cm_id r
  ∧ cm_subject r ≠ []
  ∧ (length (cm_body r) ≤ 1500)%nat
  ∧ cm_from r = default [] (cm_headers r !! py "From")
  ∧ (cm_is_read r = true ↔ py "UNREAD" ∉ default [] (labelIds msg)).
Proof.
  intros (hmap & _ & Hid & Hh & Hp & _ & Hf & Hr & body_raw & _ & Hs & Hb)
    %clean_gmail_message_inv.
  split_and!; [done|done| | |by rewrite Hh|].
  - rewrite Hs. apply clean_email_subject_shape.
  - rewrite Hb.
    pose proof (truncate_bound (untruncated_body body_raw) _MAX_CHARS) as Hl.
    unfold _MAX_CHARS in *. lia.
  - rewrite Hr, negb_true_iff, bool_decide_eq_false. done.
Qed.

Lemma decode_part_no_textual p : has_textual p = false → _decode_part p = [].
Proof.
  induction p as [m h b ps IH] using part_tree_ind.
  cbn [has_textual]. intros [Hhit Hsub]%orb_false_iff.
  rewrite decode_part_unfold, Hhit. cbn [parts] in *.
  induction IH as [|sub ps Hs _ IHps]; [done|].
  cbn [existsb] in Hsub. apply orb_false_iff in Hsub as [Hs' Hps].
  rewrite fmap_cons. simpl. rewrite (Hs Hs'). by apply IHps.
Qed.

(** X15. A message with no payload, or whose payload has no textual part
    with data anywhere in its tree, is cleaned from its snippet, and from
    the empty text when it has no snippet either. *)
Theorem clean_gmail_message_snippet (msg : gmail_message)
    (cache : header_cache) r cache' :
  clean_gmail_message msg cache = Ok (r, cache') →
  (∀ p, payload msg = Some p → has_textual p = false) →
  cm_body r
  = _truncate (untruncated_body (default [] (snippet msg))) _MAX_CHARS.
Proof.
  intros (hmap & _ & _ & _ & _ & _ & _ & _ & body_raw & -> & _ & ->)
    %clean_gmail_message_inv Hno.
  destruct (payload msg) as [p|]; simpl; [|done].
  by rewrite decode_part_no_textual by auto.
Qed.

Lemma clean_gmail_message_key_error msg cache e :
  clean_gmail_message msg cache = Raise e → e = KeyError.
Proof.
  unfold clean_gmail_message, _headers_to_dict.
  destruct (header_pairs _) as [pairs|e'] eqn:Ep; simpl.
  - destruct (cache !! _); simpl; destruct (msg_id msg); simpl; congruence.
  - intros [= <-]. clear -Ep.
    revert Ep. generalize (from_option headers [] (payload msg)).
    intros hs. revert e'. induction hs as [|h hs IH]; intros e'; simpl; [done|].
    unfold header_pair. destruct (h !! py "name"), (h !! py "value");
      simpl; try congruence.
    destruct (header_pairs hs); simpl; [done|]. intros [= <-]. by eapply IH.
Qed.

Lemma clean_gmail_message_no_id msg cache :
  msg_id msg = None → clean_gmail_message msg cache = Raise KeyError.
Proof.
  intros Hid. destruct (clean_gmail_message msg cache) as [[r c]|e] eqn:E.
  - apply clean_gmail_message_inv in E as (_ & _ & Hid' & _). congruence.
  - by apply clean_gmail_message_key_error in E as ->.
Qed.

(** X16. When [clean_gmail_batch] returns, it returns one cleaned message
    for each message given, in the same order, each with the id of its
    message. *)
Theorem clean_gmail_batch_ids (msgs : list gmail_message)
    (cache : header_cache) rs cache' :
  clean_gmail_batch msgs cache = Ok (rs, cache') →
  msg_id <$> msgs = (fun r => Some (cm_id r)) <$> rs.
Proof.
  revert cache rs cache'. induction msgs as [|m msgs IH];
    intros cache rs cache'; simpl.
  - by intros [= <- <-].
  - destruct (clean_gmail_message m cache) as [[r c]|] eqn:Em; simpl; [|done].
    destruct (clean_gmail_batch msgs c) as [[rs' c']|] eqn:Eb; simpl; [|done].
    intros [= <- <-]. rewrite !fmap_cons. f_equal.
    + by apply clean_gmail_message_inv in Em as (_ & _ & -> & _).
    + by eapply IH.
Qed.

(** X17. One message without an id makes the whole batch raise [KeyError]:
    no cleaned message is returned, not even for the messages before
    it. *)
Theorem clean_gmail_batch_missing_id (msgs : list gmail_message)
    (cache : header_cache) m :
  m ∈ msgs → msg_id m = None →
  clean_gmail_batch msgs cache = Raise KeyError.
Proof.
  intros Hm Hid. revert cache.
  induction msgs as [|m' msgs IH]; intros cache;
    [by apply elem_of_nil in Hm|].
  simpl. destruct (clean_gmail_message m' cache) as [[r c]|e] eqn:Em; simpl.
  - apply elem_of_cons in Hm as [->|Hm].
    + by rewrite clean_gmail_message_no_id in Em.
    + by rewrite IH.
  - by apply clean_gmail_message_key_error in Em as ->.
Qed.
End Messages.

(** ** Header maps *)

Section HeaderMaps.
Context `{Runtime}.

Lemma header_pairs_Forall2 hs pairs :
  header_pairs hs = Ok pairs →
  Forall2 (fun h p => h !! py "name" = Some p.1 ∧ h !! py "value" = Some p.2)
    hs pairs.
Proof.
  revert pairs. induction hs as [|h hs IH]; intros pairs; simpl.
  - intros [= <-]. constructor.
  - unfold header_pair.
    destruct (h !! py "name") as [n|] eqn:En; [|done].
    destruct (h !! py "value") as [v|] eqn:Ev; [|done]. simpl.
    destruct (header_pairs hs) as [ps|]; [|done]. simpl.
    intros [= <-]. constructor; [done|]. by apply IH.
Qed.

Lemma header_map_lookup pairs k :
  match header_map pairs !! k with
  | Some v => ∃ l1 l2, pairs = l1 ++ (k, v) :: l2 ∧ k ∉ l2.*1
  | None => k ∉ pairs.*1
  end.
Proof.
  induction pairs as [|[k' v'] pairs IH] using rev_ind.
  - unfold header_map. simpl. rewrite lookup_empty. apply not_elem_of_nil.
  - rewrite header_map_snoc. destruct (decide (k' = k)) as [->|Hk].
    + rewrite lookup_insert_eq. exists pairs, []. split; [done|].
      apply not_elem_of_nil.
    + rewrite lookup_insert_ne by done.
      destruct (header_map pairs !! k) as [v|].
      * destruct IH as (l1 & l2 & -> & Hl2).
        exists l1, (l2 ++ [(k', v')]). split; [by rewrite <- app_assoc|].
        rewrite fmap_app, not_elem_of_app. split; [done|].
        simpl. by intros [->|[]%elem_of_nil]%elem_of_cons.
      * rewrite fmap_app, not_elem_of_app. split; [done|].
        simpl. by intros [->|[]%elem_of_nil]%elem_of_cons.
Qed.

Lemma header_names_absent (hs : list (gmap pystr pystr))
    (pairs : list (pystr * pystr)) k :
  Forall2 (fun h p => h !! py "name" = Some p.1 ∧ h !! py "value" = Some p.2)
    hs pairs →
  k ∉ pairs.*1 → Forall (fun h => h !! py "name" ≠ Some k) hs.
Proof.
  induction 1 as [|h [n v] hs pairs [Hn _] _ IH]; [constructor|].
  rewrite fmap_cons, not_elem_of_cons. intros [Hk Hps].
  constructor; [|by apply IH]. rewrite Hn. simpl in *. congruence.
Qed.

(** X18. The map [fetcher._headers_to_dict] builds gives, for a name, the
    value of the last header of that name, and has no entry for a name
    that no header carries. *)
Theorem fetcher_headers_last_wins (hs : list (gmap pystr pystr)) m
    (k : pystr) :
  fetcher._headers_to_dict hs = Ok m →
  match m !! k with
  | Some v =>
      ∃ before h after,
        hs = before ++ h :: after
        ∧ h !! py "name" = Some k ∧ h !! py "value" = Some v
        ∧ Forall (fun h' => h' !! py "name" ≠ Some k) after
  | None => Forall (fun h => h !! py "name" ≠ Some k) hs
  end.
Proof.
  unfold fetcher._headers_to_dict.
  destruct (header_pairs hs) as [pairs|] eqn:Ep; simpl; [|done].
  intros [= <-]. apply header_pairs_Forall2 in Ep.
  pose proof (header_map_lookup pairs k) as Hl.
  destruct (header_map pairs !! k) as [v|].
  - destruct Hl as (l1 & l2 & -> & Hl2).
    apply Forall2_app_inv_r in Ep as (before & rest & Hb & Hr & ->).
    apply Forall2_cons_inv_r in Hr as (h & after & [Hn Hv] & Ha & ->).
    exists before, h, after. split_and!; try done.
    by eapply header_names_absent.
  - by eapply header_names_absent.
Qed.

(** X19. A second call of [_headers_to_dict] on the same header list finds
    the entry the first call left in the memo table: it returns the same
    map and leaves the table as it is. *)
Theorem headers_to_dict_memo_hit (hs : list (gmap pystr pystr))
    (cache : header_cache) m cache' :
  _headers_to_dict hs cache = Ok (m, cache') →
  _headers_to_dict hs cache' = Ok (m, cache').
Proof.
  intros (pairs & Hp & Hm)%headers_to_dict_inv.
  unfold _headers_to_dict. rewrite Hp. simpl.
  destruct (cache !! merge_sort pair_le pairs) as [m'|] eqn:E.
  - destruct Hm as [-> ->]. by rewrite E.
  - destruct Hm as [-> ->]. by rewrite lookup_insert_eq.
Qed.
End HeaderMaps.

(** ** The two body extractors *)

Section Extractors.
Context `{Runtime}.

Lemma extract_plain_body_unfold p :
  fetcher._extract_plain_body p =
    if startswith (py "text/") (default [] (mimeType p))
       && bool_decide (is_Some (body p ≫= data))
    then default [] ((body p ≫= data) ≫= fetcher.b64_text_of_str)
    else first_nonempty (fetcher._extract_plain_body <$> parts p).
Proof.
  destruct p as [m h b ps]. simpl. case_match; [done|].
  induction ps as [|sub ps IH]; [done|].
  rewrite fmap_cons. simpl. rewrite IH.
  by destruct (fetcher._extract_plain_body sub).
Qed.

Lemma is_textual_prefix m : is_textual m = startswith (py "text/") m.
Proof.
  unfold is_textual, str_eqb. case_bool_decide as Hm; [|done].
  subst m. by vm_compute.
Qed.

(** X20. On a part tree in which every payload present is a non-empty
    ASCII string, the extractor of the fetcher and the one of the
    preprocessor return the same text. *)
Theorem extractors_agree (p : part) :
  data_plain p = true → fetcher._extract_plain_body p = _decode_part p.
Proof.
  induction p as [m h b ps IH] using part_tree_ind.
  cbn [data_plain]. intros [Hd Hps]%andb_true_iff.
  rewrite extract_plain_body_unfold, decode_part_unfold.
  unfold is_hit, decoded. cbn [body mimeType parts] in *.
  rewrite is_textual_prefix.
  assert (fetcher._extract_plain_body <$> ps = _decode_part <$> ps) as ->.
  { clear Hd. induction IH as [|sub ps Hs _ IHps]; [done|].
    cbn [forallb] in Hps. apply andb_true_iff in Hps as [Hsub Hps].
    rewrite !fmap_cons. f_equal; [by apply Hs|by apply IHps]. }
  destruct (b ≫= data) as [[|c d]|] eqn:Eb; [done| |].
  - rewrite bool_decide_true by eauto. rewrite andb_true_r.
    cbn [mbind option_bind]. unfold fetcher.b64_text_of_str. by rewrite Hd.
  - rewrite bool_decide_false by (by intros [? [=]]).
    by rewrite andb_false_r.
Qed.
End Extractors.

(** ** From the summary to the rows *)

Section Pipeline.
Context `{Runtime}.

Lemma summarize_single_inv msg out :
  summarize_single msg = Ok out →
  ∃ subject body text,
    out = [(py "summary", PStr (py "[FAKE] " ++ text));
           (py "importance", PStr (_heuristic_importance subject body));
           (py "action_items", PList [])].
Proof.
  unfold summarize_single.
  destruct (py_strip (py_or (dict_get (py "subject") msg) (PStr [])))
    as [subject|]; simpl; [|done].
  destruct (py_strip _) as [body|]; simpl; [|done].
  intros [= <-]. by eexists subject, _, _.
Qed.

Lemma heuristic_importance_values subject body :
  _heuristic_importance subject body = py "high"
  ∨ _heuristic_importance subject body = py "normal".
Proof. unfold _heuristic_importance. case_match; auto. Qed.

(** X21. Whatever [summarize_single] returns has the three keys of the
    schema: a summary that starts with [[FAKE] ], an importance that is
    [high] or [normal], and an empty list of action items; so
    [extract_actions] on it always takes the items from the body. *)
Theorem summarize_single_output (msg : list (pystr * pyval)) out :
  summarize_single msg = Ok out →
  (∃ text, dict_get (py "summary") out = PStr (py "[FAKE] " ++ text))
  ∧ (dict_get (py "importance") out = PStr (py "high")
     ∨ dict_get (py "importance") out = PStr (py "normal"))
  ∧ dict_get (py "action_items") out = PList []
  ∧ ∀ body, extract_actions out body = fallback_extract_from_body body.
Proof.
  intros (subject & body & text & ->)%summarize_single_inv.
  split_and!.
  - by exists text.
  - change (dict_get (py "importance") _)
      with (PStr (_heuristic_importance subject body)).
    destruct (heuristic_importance_values subject body) as [-> | ->]; auto.
  - done.
  - intros body'. by apply extract_actions_none.
Qed.

(** X22. On a cleaned Gmail message [summarize_single] does not raise, and
    the action items the poller extracts for it are those the heuristic
    finds in the cleaned body. *)
Theorem summarize_cleaned_message (r : cleaned_message) :
  ∃ out,
    summarize_single (message_dict r) = Ok out
    ∧ extract_actions out (cm_body r) = fallback_extract_from_body (cm_body r).
Proof.
  destruct (summarize_single (message_dict r)) as [out|e] eqn:E.
  - exists out. split; [done|].
    apply summarize_single_inv in E as (subject & body & text & ->).
    by apply extract_actions_none.
  - exfalso. revert E. unfold summarize_single, message_dict.
    change (dict_get (py "subject") _) with (PStr (cm_subject r)).
    change (dict_get (py "body") _) with (PStr (cm_body r)).
    change (dict_get (py "body_text") _) with PNone.
    unfold py_or. destruct (cm_subject r), (cm_body r); simpl; done.
Qed.

Lemma row_importance_ok imp : importance_ok imp → row_importance imp = imp.
Proof.
  destruct imp as [| |z| | | |]; simpl; try done.
  intros [? ?]. by rewrite !(proj2 (Z.leb_le _ _)) by done.
Qed.

Lemma upsert_action_items_rows message_id out have :
  Forall item_ok out →
  upsert_action_items message_id (item_dict <$> out) have
  = Ok (row_of message_id <$> filter (fun n => key n ∉ have) out).
Proof.
  induction 1 as [|[t imp] out (Ht & Hs & Hi) _ IH]; [done|].
  rewrite fmap_cons. cbn [upsert_action_items]. rewrite IH.
  simpl in Ht, Hs, Hi. destruct t as [|c t]; [done|].
  change (py_get (py "title") (item_dict _)) with (Ok (PStr (c :: t))).
  cbn [mbind result_bind]. unfold py_or. cbn [truthy py_strip].
  rewrite Hs. cbn [mbind result_bind].
  change (match item_dict _ with PDict d => _ | _ => PNone end) with imp.
  rewrite row_importance_ok by done.
  rewrite filter_cons. unfold key at 2. cbn [title].
  destruct (decide (lower (c :: t) ∈ have)) as [Hin|Hin].
  - by rewrite decide_False by auto.
  - by rewrite decide_True by auto.
Qed.

(** X23. Handed the items [extract_actions] returns, [upsert_action_items]
    does not raise; the rows it inserts are, in order, the items whose
    lowered title the table does not hold for the message, with title and
    importance unchanged, and no two of the rows have the same lowered
    title. *)
Theorem upsert_rows_of_extracted (summary : list (pystr * pyval))
    (body : pystr) (out : list ActionItem) (message_id : pystr)
    (have : gset pystr) :
  extract_actions summary body = Ok out →
  ∃ rows,
    upsert_action_items message_id (item_dict <$> out) have = Ok rows
    ∧ rows = (fun n => {| row_mid := message_id; row_title := title n;
                          row_imp := importance n |})
             <$> filter (fun n => lower (title n) ∉ have) out
    ∧ NoDup ((fun row => lower (row_title row)) <$> rows).
Proof.
  intros [Hok Hnd]%extract_actions_ok. eexists. split_and!.
  - by apply upsert_action_items_rows.
  - done.
  - rewrite <- list_fmap_compose.
    eapply sublist_NoDup; [exact Hnd|].
    apply (fmap_sublist key), sublist_filter.
Qed.
End Pipeline.

(** ** The tracking links of the command line *)

Lemma tracking_match_backslash s : 92 ∉ s → tracking_match s = None.
Proof.
  intros Hs. unfold tracking_match.
  destruct (startswith (py "https://") s); [|done].
  set (r := drop (run_length tracking_class (drop 8 s)) (drop 8 s)).
  assert (r ⊆ s) as Hr.
  { unfold r. etrans; apply subseteq_drop. }
  destruct (startswith (py "indeed") r); [|done].
  pose proof (subseteq_drop 6 r) as Hd.
  destruct (drop 6 r) as [|b [|x r']]; [done..|].
  destruct (N.eqb_spec b 92) as [->|]; [|done].
  exfalso. apply Hs, Hr, Hd. by left.
Qed.

(** X24. [remove_tracking_links] returns a text without a backslash as it
    is: the pattern, written with doubled backslashes in a raw string,
    only matches a link that has a backslash before [.com] and after
    it. *)
Theorem remove_tracking_links_no_backslash (text : pystr) :
  92 ∉ text → remove_tracking_links text = text.
Proof.
  unfold remove_tracking_links. induction text as [|c t IH]; [done|].
  intros Hs. cbn [tracking_sub_go]. rewrite tracking_match_backslash by done.
  rewrite IH; [done|]. intros Ht. apply Hs. by right.
Qed.

(** ** The further properties at concrete inputs *)

(** Two spellings of one title, the first with blanks around it. *)
Lemma normalize_items_invariant_witness :
  normalize_items (H := ascii_runtime)
    (PList [PStr (py " Pay rent "); PStr (py "pay rent")])
  = Ok [{| title := py "Pay rent"; importance := PInt 2 |}]
  ∧ Forall item_ok [{| title := py "Pay rent"; importance := PInt 2 |}]
  ∧ NoDup (key (H := ascii_runtime)
             <$> [{| title := py "Pay rent"; importance := PInt 2 |}]).
Proof.
  assert (Hn : normalize_items (H := ascii_runtime)
                 (PList [PStr (py " Pay rent "); PStr (py "pay rent")])
               = Ok [{| title := py "Pay rent"; importance := PInt 2 |}])
    by (by vm_compute).
  split; [exact Hn|].
  exact (normalize_items_invariant (H := ascii_runtime) _ _ Hn).
Defined.

(** A summary that supplies one item with a label for importance. *)
Lemma extract_actions_invariant_witness :
  extract_actions (H := ascii_runtime)
    [(py "action_items",
      PList [PDict [(py "title", PStr (py "Call Bo "));
                    (py "importance", PStr (py "HIGH"))]])]
    (py "Please send the report.")
  = Ok [{| title := py "Call Bo"; importance := PInt 3 |}]
  ∧ Forall item_ok [{| title := py "Call Bo"; importance := PInt 3 |}]
  ∧ NoDup (key (H := ascii_runtime)
             <$> [{| title := py "Call Bo"; importance := PInt 3 |}]).
Proof.
  assert (He : extract_actions (H := ascii_runtime)
                 [(py "action_items",
                   PList [PDict [(py "title", PStr (py "Call Bo "));
                                 (py "importance", PStr (py "HIGH"))]])]
                 (py "Please send the report.")
               = Ok [{| title := py "Call Bo"; importance := PInt 3 |}])
    by (by vm_compute).
  split; [exact He|].
  exact (extract_actions_invariant (H := ascii_runtime) _ _ _ He).
Defined.

(** A body with two requests. *)
Lemma fallback_at_most_five_witness :
  fallback_extract_from_body (H := ascii_runtime)
    (py "Please send the report asap. Could you also review the draft?")
  = Ok [{| title := py "Please send the report asap.";
           importance := PInt 3 |};
        {| title := py "Could you also review the draft?";
           importance := PInt 2 |}]
  ∧ (length [{| title := py "Please send the report asap.";
                importance := PInt 3 |};
             {| title := py "Could you also review the draft?";
                importance := PInt 2 |}] ≤ 5)%nat.
Proof.
  assert (Hf : fallback_extract_from_body (H := ascii_runtime)
                 (py "Please send the report asap. Could you also review the draft?")
               = Ok [{| title := py "Please send the report asap.";
                        importance := PInt 3 |};
                     {| title := py "Could you also review the draft?";
                        importance := PInt 2 |}])
    by (by vm_compute).
  split; [exact Hf|].
  exact (fallback_at_most_five (H := ascii_runtime) _ _ Hf).
Defined.

(** A text of one sentence and a fragment too short to keep. *)
Lemma split_sentences_invariant_witness :
  py "Send it now." ∈ _split_sentences (py "Send it now. Ok")
  ∧ (4 ≤ length (py "Send it now."))%nat
  ∧ strip (py "Send it now.") = py "Send it now."
  ∧ plain_spaces (py "Send it now.")
  ∧ uncut false (py "Send it now.") = true.
Proof.
  assert (Hs : py "Send it now." ∈ _split_sentences (py "Send it now. Ok"))
    by (apply (bool_decide_unpack _); by vm_compute).
  split; [exact Hs|].
  exact (split_sentences_invariant _ _ Hs).
Defined.

(** A body with one urgent request. *)
Lemma fallback_titles_and_importance_witness :
  fallback_extract_from_body (H := ascii_runtime)
    (py "Please send the report asap.")
  = Ok [{| title := py "Please send the report asap.";
           importance := PInt 3 |}]
  ∧ py "Please send the report asap."
    ∈ _split_sentences
        (body_text (py "Please send the report asap."))
  ∧ (PInt 3 = PInt 2 ∨ PInt 3 = PInt 3).
Proof.
  assert (Hf : fallback_extract_from_body (H := ascii_runtime)
                 (py "Please send the report asap.")
               = Ok [{| title := py "Please send the report asap.";
                        importance := PInt 3 |}])
    by (by vm_compute).
  split; [exact Hf|].
  exact (fallback_titles_and_importance (H := ascii_runtime) _ _
           {| title := py "Please send the report asap.";
              importance := PInt 3 |} Hf (list_elem_of_here _ _)).
Defined.

(** A request, the signature delimiter, and a request below it. *)
Lemma fallback_stops_at_signature_witness :
  _SIG_LINE_match (py "-- ") = true
  ∧ no_linebreak (py "-- ")
  ∧ fallback_extract_from_body (H := ascii_runtime)
      (py "Please send the report" ++ LF :: py "-- "
         ++ LF :: py "Ana could you call")
    = fallback_extract_from_body (H := ascii_runtime)
        (py "Please send the report" ++ [LF]).
Proof.
  assert (Hs : _SIG_LINE_match (py "-- ") = true) by (by vm_compute).
  assert (Hl : no_linebreak (py "-- "))
    by (apply (bool_decide_unpack _); by vm_compute).
  split; [exact Hs|]. split; [exact Hl|].
  exact (fallback_stops_at_signature (H := ascii_runtime)
           (py "Please send the report") (py "-- ")
           (LF :: py "Ana could you call") Hs Hl
           (or_intror (ex_intro _ (py "Ana could you call") eq_refl))).
Defined.

(** A request, a quoted line, and a closing line. *)
Lemma fallback_skips_quoted_line_witness :
  _QUOTED_LINE_match (py "> please reply") = true
  ∧ no_linebreak (py "> please reply")
  ∧ fallback_extract_from_body (H := ascii_runtime)
      (py "Please send the report" ++ LF :: py "> please reply"
         ++ LF :: py "Thanks a lot")
    = fallback_extract_from_body (H := ascii_runtime)
        (py "Please send the report" ++ LF :: py "Thanks a lot").
Proof.
  assert (Hq : _QUOTED_LINE_match (py "> please reply") = true)
    by (by vm_compute).
  assert (Hl : no_linebreak (py "> please reply"))
    by (apply (bool_decide_unpack _); by vm_compute).
  split; [exact Hq|]. split; [exact Hl|].
  exact (fallback_skips_quoted_line (H := ascii_runtime)
           (py "Please send the report") (py "> please reply")
           (py "Thanks a lot") Hq Hl).
Defined.

(** A short text that ends with a blank. *)
Lemma truncate_no_trailing_space_witness :
  (Z.of_nat (length (py "ab ")) ≤ 10)%Z
  ∧ rstrip (_truncate (py "ab ") 10) = _truncate (py "ab ") 10
  ∧ _truncate (py "ab ") 10 = strip (py "ab ").
Proof.
  assert (Hlen : (Z.of_nat (length (py "ab ")) ≤ 10)%Z) by (by vm_compute).
  split; [exact Hlen|].
  split.
  - exact (proj1 (truncate_no_trailing_space (py "ab ") 10)).
  - exact (proj2 (truncate_no_trailing_space (py "ab ") 10) Hlen).
Defined.

(** A text with a link of another scheme. *)
Lemma simplify_urls_without_http_witness :
  contains (py "http") (py "see ftp://x.org now") = false
  ∧ _simplify_urls (py "see ftp://x.org now") = py "see ftp://x.org now".
Proof.
  assert (Hc : contains (py "http") (py "see ftp://x.org now") = false)
    by (by vm_compute).
  split; [exact Hc|].
  exact (simplify_urls_without_http _ Hc).
Defined.

(** An unread message with a plain-text part. *)
Lemma clean_gmail_message_result_witness :
  ∃ r c,
    clean_gmail_message (H := ascii_runtime)
      {| msg_id := Some (py "18c2"); threadId := None;
         payload := Some (Part (Some (py "text/plain"))
                            [header (py "Subject") (py "Hi");
                             header (py "From") (py "ana@example.com")]
                            (Some {| data := Some (py "aGk=") |}) []);
         snippet := None; labelIds := Some [py "UNREAD"];
         internalDate := None; historyId := None |} ∅ = Ok (r, c)
    ∧ Some (py "18c2") = Some (cm_id r)
    ∧ cm_gmail_permalink r
      = py "https://mail.google.com/mail/u/0/#inbox/" ++ cm_id r
    ∧ cm_subject r ≠ []
    ∧ (length (cm_body r) ≤ 1500)%nat
    ∧ cm_from r = default [] (cm_headers r !! py "From")
    ∧ (cm_is_read r = true ↔ py "UNREAD" ∉ [py "UNREAD"]).
Proof.
  destruct (clean_gmail_message_total (H := ascii_runtime)
              {| msg_id := Some (py "18c2"); threadId := None;
                 payload := Some (Part (Some (py "text/plain"))
                                    [header (py "Subject") (py "Hi");
                                     header (py "From") (py "ana@example.com")]
                                    (Some {| data := Some (py "aGk=") |}) []);
                 snippet := None; labelIds := Some [py "UNREAD"];
                 internalDate := None; historyId := None |} ∅)
    as [[r c] E].
  - by eexists.
  - unfold headers_complete. simpl.
    repeat (apply Forall_cons_2; [split; eexists; by vm_compute|]).
    apply Forall_nil_2.
  - exists r, c. split; [exact E|].
    exact (clean_gmail_message_result (H := ascii_runtime) _ _ _ _ E).
Defined.

(** A message whose only part is an image. *)
Lemma clean_gmail_message_snippet_witness :
  has_textual (Part (Some (py "image/png")) [] 
                 (Some {| data := Some (py "AAAA") |}) []) = false
  ∧ ∃ r c,
      clean_gmail_message (H := ascii_runtime)
        {| msg_id := Some (py "18c2"); threadId := None;
           payload := Some (Part (Some (py "image/png")) []
                              (Some {| data := Some (py "AAAA") |}) []);
           snippet := Some (py "See you at noon "); labelIds := None;
           internalDate := None; historyId := None |} ∅ = Ok (r, c)
      ∧ cm_body r
        = _truncate (untruncated_body (H := ascii_runtime)
                       (py "See you at noon ")) _MAX_CHARS.
Proof.
  assert (Hno : has_textual (Part (Some (py "image/png")) []
                   (Some {| data := Some (py "AAAA") |}) []) = false)
    by (by vm_compute).
  split; [exact Hno|].
  match goal with |- ∃ r c, ?f = _ ∧ _ =>
    destruct f as [[r c]|e] eqn:E end.
  - exists r, c. split; [done|].
    refine (clean_gmail_message_snippet (H := ascii_runtime) _ _ _ _ E _).
    intros p [= <-]. exact Hno.
  - by vm_compute in E.
Defined.

(** Two messages with ids. *)
Lemma clean_gmail_batch_ids_witness :
  ∃ rs c,
    clean_gmail_batch (H := ascii_runtime)
      [{| msg_id := Some (py "a1"); threadId := None; payload := None;
          snippet := Some (py "One"); labelIds := None;
          internalDate := None; historyId := None |};
       {| msg_id := Some (py "b2"); threadId := None; payload := None;
          snippet := Some (py "Two"); labelIds := None;
          internalDate := None; historyId := None |}] ∅ = Ok (rs, c)
    ∧ [Some (py "a1"); Some (py "b2")]
      = (fun r => Some (cm_id r)) <$> rs.
Proof.
  match goal with |- ∃ rs c, ?f = _ ∧ _ =>
    destruct f as [[rs c]|e] eqn:E end.
  - exists rs, c. split; [done|].
    exact (clean_gmail_batch_ids (H := ascii_runtime) _ _ _ _ E).
  - by vm_compute in E.
Defined.

(** A message with an id followed by one without. *)
Lemma clean_gmail_batch_missing_id_witness :
  clean_gmail_batch (H := ascii_runtime)
    [{| msg_id := Some (py "a1"); threadId := None; payload := None;
        snippet := Some (py "One"); labelIds := None;
        internalDate := None; historyId := None |};
     {| msg_id := None; threadId := None; payload := None;
        snippet := Some (py "Two"); labelIds := None;
        internalDate := None; historyId := None |}] ∅
  = Raise KeyError.
Proof.
  refine (clean_gmail_batch_missing_id (H := ascii_runtime) _ _
            {| msg_id := None; threadId := None; payload := None;
               snippet := Some (py "Two"); labelIds := None;
               internalDate := None; historyId := None |} _ eq_refl).
  apply list_elem_of_further, list_elem_of_here.
Defined.

(** A header list with a repeated name. *)
Lemma fetcher_headers_last_wins_witness :
  ∃ m,
    fetcher._headers_to_dict
      [header (py "X") (py "1"); header (py "X") (py "2")] = Ok m
    ∧ m !! py "X" = Some (py "2")
    ∧ ∃ before h after,
        [header (py "X") (py "1"); header (py "X") (py "2")]
        = before ++ h :: after
        ∧ h !! py "name" = Some (py "X") ∧ h !! py "value" = Some (py "2")
        ∧ Forall (fun h' => h' !! py "name" ≠ Some (py "X")) after.
Proof.
  destruct (fetcher._headers_to_dict
              [header (py "X") (py "1"); header (py "X") (py "2")])
    as [m|e] eqn:E.
  - exists m.
    assert (Hm : m !! py "X" = Some (py "2")).
    { vm_compute in E. injection E as <-. by vm_compute. }
    split; [done|]. split; [exact Hm|].
    pose proof (fetcher_headers_last_wins _ m (py "X") E) as Hw.
    rewrite Hm in Hw. exact Hw.
  - by vm_compute in E.
Defined.

(** The second of two calls on one header list. *)
Lemma headers_to_dict_memo_hit_witness :
  ∃ m c,
    _headers_to_dict
      [header (py "From") (py "ana@example.com");
       header (py "Subject") (py "Hello")] ∅ = Ok (m, c)
    ∧ _headers_to_dict
        [header (py "From") (py "ana@example.com");
         header (py "Subject") (py "Hello")] c = Ok (m, c).
Proof.
  destruct (headers_to_dict_complete
              [header (py "From") (py "ana@example.com");
               header (py "Subject") (py "Hello")] ∅)
    as [[m c] E].
  - repeat (apply Forall_cons_2; [split; eexists; by vm_compute|]).
    apply Forall_nil_2.
  - exists m, c. split; [exact E|].
    exact (headers_to_dict_memo_hit _ _ _ _ E).
Defined.

(** A multipart message with a plain-text part. *)
Lemma extractors_agree_witness :
  data_plain (Part (Some (py "multipart/alternative")) [] None
                [Part (Some (py "text/plain")) []
                   (Some {| data := Some (py "aGk=") |}) []]) = true
  ∧ fetcher._extract_plain_body (H := ascii_runtime)
      (Part (Some (py "multipart/alternative")) [] None
         [Part (Some (py "text/plain")) []
            (Some {| data := Some (py "aGk=") |}) []])
    = _decode_part (H := ascii_runtime)
        (Part (Some (py "multipart/alternative")) [] None
           [Part (Some (py "text/plain")) []
              (Some {| data := Some (py "aGk=") |}) []]).
Proof.
  assert (Hd : data_plain (Part (Some (py "multipart/alternative")) [] None
                  [Part (Some (py "text/plain")) []
                     (Some {| data := Some (py "aGk=") |}) []]) = true)
    by (by vm_compute).
  split; [exact Hd|].
  exact (extractors_agree (H := ascii_runtime) _ Hd).
Defined.

(** A message about an invoice. *)
Lemma summarize_single_output_witness :
  ∃ out,
    summarize_single (H := ascii_runtime)
      [(py "subject", PStr (py "Invoice due"));
       (py "body", PStr (py "Please pay"))] = Ok out
    ∧ (∃ text, dict_get (py "summary") out = PStr (py "[FAKE] " ++ text))
    ∧ (dict_get (py "importance") out = PStr (py "high")
       ∨ dict_get (py "importance") out = PStr (py "normal"))
    ∧ dict_get (py "action_items") out = PList []
    ∧ ∀ body, extract_actions (H := ascii_runtime) out body
              = fallback_extract_from_body (H := ascii_runtime) body.
Proof.
  match goal with |- ∃ out, ?f = _ ∧ _ =>
    destruct f as [out|e] eqn:E end.
  - exists out. split; [done|].
    exact (summarize_single_output (H := ascii_runtime) _ _ E).
  - by vm_compute in E.
Defined.

(** Two items, the table holding the first. *)
Lemma upsert_rows_of_extracted_witness :
  extract_actions (H := ascii_runtime)
    [(py "action_items", PList [PStr (py "Call Bo"); PStr (py "Pay rent")])]
    []
  = Ok [{| title := py "Call Bo"; importance := PInt 2 |};
        {| title := py "Pay rent"; importance := PInt 2 |}]
  ∧ upsert_action_items (H := ascii_runtime) (py "18c2")
      (item_dict <$> [{| title := py "Call Bo"; importance := PInt 2 |};
                      {| title := py "Pay rent"; importance := PInt 2 |}])
      {[ py "call bo" ]}
    = Ok [{| row_mid := py "18c2"; row_title := py "Pay rent";
             row_imp := PInt 2 |}].
Proof.
  assert (He : extract_actions (H := ascii_runtime)
                 [(py "action_items",
                   PList [PStr (py "Call Bo"); PStr (py "Pay rent")])] []
               = Ok [{| title := py "Call Bo"; importance := PInt 2 |};
                     {| title := py "Pay rent"; importance := PInt 2 |}])
    by (by vm_compute).
  split; [exact He|].
  destruct (upsert_rows_of_extracted (H := ascii_runtime) _ _ _ (py "18c2")
              {[ py "call bo" ]} He) as (rows & -> & -> & _).
  by vm_compute.
Defined.

(** A job link as the site writes it. *)
Lemma remove_tracking_links_no_backslash_witness :
  (92 ∉ py "see https://www.indeed.com/viewjob?jk=1")
  ∧ remove_tracking_links (py "see https://www.indeed.com/viewjob?jk=1")
    = py "see https://www.indeed.com/viewjob?jk=1".
Proof.
  assert (Hb : 92 ∉ py "see https://www.indeed.com/viewjob?jk=1")
    by (apply (bool_decide_unpack _); by vm_compute).
  split; [exact Hb|].
  exact (remove_tracking_links_no_backslash _ Hb).
Defined.
